(** * github-exporter: a shallow embedding of [main.go]

    The program authenticates against the GitHub REST API, fetches the
    activity of the authenticated user (either repository by repository,
    [fetchGitHubData], or from the event feed, [fetchGitHubEvents]) into an
    [Export] value and writes it as JSON, CSV or a text table.

    Conventions of the embedding:
    - a Go pointer field [*T] is an [option T]; dereferencing [None] panics;
    - a Go slice is a [slice T]: [None] is the nil slice, [Some l] a non-nil
      one, and [append] always yields a non-nil slice;
    - a Go [(T, error)] result is a pair [T * option error];
    - code that may panic lives in the [outcome] monad;
    - the GitHub client is a record of functions: a snapshot of what the
      server answers to each request; the lists it returns hold no nil
      element;
    - a field keeps its Go name where the name is free: the fields of the
      export records carry the record as a prefix ([commit_SHA]), and the
      field [Watch] of [Export] is [Watches], [Watch] being the record. *)

From Stdlib Require Import List String Ascii ZArith Bool Lia Arith.
From Stdlib Require Import DecimalString.
Import ListNotations.
Open Scope string_scope.
Open Scope Z_scope.
Open Scope list_scope.

Set Implicit Arguments.

(** ** Go runtime: errors, panics, slices *)

Definition error := string.

(** [time.Time], as whole seconds since Go's zero time. *)
Definition Time := Z.
Definition zeroTime : Time := 0.

Inductive outcome (A : Type) : Type :=
| Return (a : A)
| Panic (why : string).
Arguments Return {A} a.
Arguments Panic {A} why.

Definition bind {A B} (m : outcome A) (k : A -> outcome B) : outcome B :=
  match m with
  | Return a => k a
  | Panic w => Panic w
  end.

Notation "x <- m ;; k" := (bind m (fun x => k))
  (at level 61, m at next level, right associativity).

(** [*p] for a pointer [p]. *)
Definition deref {A} (p : option A) : outcome A :=
  match p with
  | Some a => Return a
  | None => Panic "invalid memory address or nil pointer dereference"
  end.

Definition slice (A : Type) := option (list A).

Definition elems {A} (s : slice A) : list A :=
  match s with
  | Some l => l
  | None => []
  end.

Definition len {A} (s : slice A) : nat := List.length (elems s).

Definition append {A} (s : slice A) (x : A) : slice A := Some (elems s ++ [x]).

(** A [for _, x := range xs] loop whose body updates a state and may panic. *)
Fixpoint range {A S} (body : S -> A -> outcome S) (xs : list A) (s : S)
  : outcome S :=
  match xs with
  | [] => Return s
  | x :: rest => s' <- body s x ;; range body rest s'
  end.

(** ** The part of the go-github client the program uses *)

Module github.

Record ListOptions := mkListOptions { Page : Z; PerPage : Z }.

Record Response := mkResponse { NextPage : Z }.

Record User := mkUser { Login : option string }.

Record Repository := mkRepository {
  Owner : option User;
  Name : option string }.

Record CommitAuthor := mkCommitAuthor {
  ca_Name : option string;
  ca_Date : option Time }.

(** [github.Commit], the git part of a repository commit. *)
Record GitCommit := mkGitCommit {
  gc_Message : option string;
  gc_Author : option CommitAuthor }.

Record RepositoryCommit := mkRepositoryCommit {
  rc_SHA : option string;
  rc_Commit : option GitCommit }.

Record PullRequest := mkPullRequest {
  pull_Number : option Z;
  pull_Title : option string;
  pull_State : option string;
  pull_User : option User;
  pull_CreatedAt : option Time }.

Record PullRequestLinks := mkPullRequestLinks { prl_URL : option string }.

Record Issue := mkIssue {
  is_Number : option Z;
  is_Title : option string;
  is_State : option string;
  is_User : option User;
  is_CreatedAt : option Time;
  is_PullRequestLinks : option PullRequestLinks }.

Record RepositoryRelease := mkRepositoryRelease {
  rr_TagName : option string;
  rr_Name : option string;
  rr_Author : option User;
  rr_CreatedAt : option Time }.

Record HeadCommit := mkHeadCommit {
  hc_SHA : option string;
  hc_Message : option string }.

Record PushEvent := mkPushEvent { pe_Commits : list HeadCommit }.
Record PullRequestEvent := mkPullRequestEvent {
  pre_Action : option string;
  pre_PullRequest : option PullRequest }.
Record IssuesEvent := mkIssuesEvent {
  ie_Action : option string;
  ie_Issue : option Issue }.
Record ReleaseEvent := mkReleaseEvent {
  re_Action : option string;
  re_Release : option RepositoryRelease }.
Record WatchEvent := mkWatchEvent { we_Action : option string }.

(** The dynamic type behind the [interface{}] that [ParsePayload] returns. *)
Inductive Payload :=
| PushPayload (p : PushEvent)
| PullRequestPayload (p : PullRequestEvent)
| IssuesPayload (p : IssuesEvent)
| ReleasePayload (p : ReleaseEvent)
| WatchPayload (p : WatchEvent)
| OtherPayload.

(** An event of the feed.  [ev_Parsed] is what [ParsePayload] makes of the
    raw payload: a typed payload, or a decoding error. *)
Record Event := mkEvent {
  ev_Type : option string;
  ev_Actor : option User;
  ev_Repo : option Repository;
  ev_CreatedAt : option Time;
  ev_Parsed : Payload + error }.

(** The nil-safe accessors. *)
Definition orEmpty (p : option string) : string :=
  match p with Some s => s | None => EmptyString end.
Definition orZero (p : option Z) : Z :=
  match p with Some z => z | None => 0 end.

Definition User_GetLogin (u : option User) : string :=
  match u with Some u => orEmpty (Login u) | None => EmptyString end.
Definition Repository_GetName (r : option Repository) : string :=
  match r with Some r => orEmpty (Name r) | None => EmptyString end.
Definition Event_GetType (e : Event) : string := orEmpty (ev_Type e).
Definition Event_GetActor (e : Event) : option User := ev_Actor e.
Definition Event_GetRepo (e : Event) : option Repository := ev_Repo e.
Definition Event_GetCreatedAt (e : Event) : Time :=
  match ev_CreatedAt e with Some t => t | None => zeroTime end.
Definition Event_ParsePayload (e : Event) : Payload + error := ev_Parsed e.
Definition HeadCommit_GetSHA (c : HeadCommit) : string := orEmpty (hc_SHA c).
Definition PullRequest_GetNumber (p : option PullRequest) : Z :=
  match p with Some p => orZero (pull_Number p) | None => 0 end.
Definition PullRequest_GetTitle (p : option PullRequest) : string :=
  match p with Some p => orEmpty (pull_Title p) | None => EmptyString end.
Definition Issue_GetNumber (p : option Issue) : Z :=
  match p with Some p => orZero (is_Number p) | None => 0 end.
Definition Issue_GetTitle (p : option Issue) : string :=
  match p with Some p => orEmpty (is_Title p) | None => EmptyString end.
Definition RepositoryRelease_GetTagName (p : option RepositoryRelease) : string :=
  match p with Some p => orEmpty (rr_TagName p) | None => EmptyString end.
Definition RepositoryRelease_GetName (p : option RepositoryRelease) : string :=
  match p with Some p => orEmpty (rr_Name p) | None => EmptyString end.

Record RepositoryListByAuthenticatedUserOptions := mkRepoListOptions {
  rl_Affiliation : string;
  rl_ListOptions : ListOptions }.

Record CommitsListOptions := mkCommitsListOptions {
  cl_Author : string;
  cl_ListOptions : ListOptions }.

(** An API call answers with a value and the paging [Response], or fails. *)
Definition api (A : Type) : Type := (A * Response) + error.

(** The client: what the server answers to each request the program can
    make.  Of the option structs of the pull request, issue and release
    listings only the paging part is kept; the program passes [nil]. *)
Record Client := mkClient {
  Repositories_ListByAuthenticatedUser :
    RepositoryListByAuthenticatedUserOptions -> api (list Repository);
  Users_Get : string -> api User;
  Repositories_ListCommits :
    string -> string -> CommitsListOptions -> api (list RepositoryCommit);
  PullRequests_List : string -> string -> option ListOptions -> api (list PullRequest);
  Issues_ListByRepo : string -> string -> option ListOptions -> api (list Issue);
  Repositories_ListReleases :
    string -> string -> option ListOptions -> api (list RepositoryRelease);
  Activity_ListEventsPerformedByUser :
    string -> bool -> ListOptions -> api (list Event) }.

End github.

Import github.

(** ** The records of [main.go] *)

Record Commit := mkCommit {
  commit_Repo : string;
  commit_SHA : string;
  commit_Message : string;
  commit_Author : string;
  commit_Date : Time }.

Record PullRequest := mkPullRequest {
  pr_Repo : string;
  pr_Number : Z;
  pr_Title : string;
  pr_State : string;
  pr_Author : string;
  pr_Action : string;
  pr_Date : Time }.

Record Issue := mkIssue {
  issue_Repo : string;
  issue_Number : Z;
  issue_Title : string;
  issue_State : string;
  issue_Author : string;
  issue_Action : string;
  issue_Date : Time }.

Record Release := mkRelease {
  release_Repo : string;
  release_TagName : string;
  release_Name : string;
  release_Author : string;
  release_Action : string;
  release_Date : Time }.

Record Watch := mkWatch {
  watch_Repo : string;
  watch_Author : string;
  watch_Action : string;
  watch_Date : Time }.

Record Export := mkExport {
  Commits : slice Commit;
  PullRequests : slice PullRequest;
  Issues : slice Issue;
  Releases : slice Release;
  Watches : slice Watch }.

(** [Export{}]: every collection is the nil slice. *)
Definition emptyExport : Export := mkExport None None None None None.

Definition add_Commit (e : Export) (x : Commit) : Export :=
  mkExport (append (Commits e) x) (PullRequests e) (Issues e) (Releases e) (Watches e).
Definition add_PullRequest (e : Export) (x : PullRequest) : Export :=
  mkExport (Commits e) (append (PullRequests e) x) (Issues e) (Releases e) (Watches e).
Definition add_Issue (e : Export) (x : Issue) : Export :=
  mkExport (Commits e) (PullRequests e) (append (Issues e) x) (Releases e) (Watches e).
Definition add_Release (e : Export) (x : Release) : Export :=
  mkExport (Commits e) (PullRequests e) (Issues e) (append (Releases e) x) (Watches e).
Definition add_Watch (e : Export) (x : Watch) : Export :=
  mkExport (Commits e) (PullRequests e) (Issues e) (Releases e) (append (Watches e) x).

(** ** Bulk mode: [fetchGitHubData] *)

Definition kind_is (kind name : string) : bool := String.eqb kind name.

(** The bodies of the four inner [range] loops: one record per API item. *)
Definition commit_record (repo : Repository) (export : Export)
    (commit : RepositoryCommit) : outcome Export :=
  name <- deref (Name repo) ;;
  sha <- deref (rc_SHA commit) ;;
  gc <- deref (rc_Commit commit) ;;
  message <- deref (gc_Message gc) ;;
  author <- deref (gc_Author gc) ;;
  authorName <- deref (ca_Name author) ;;
  date <- deref (ca_Date author) ;;
  Return (add_Commit export (mkCommit name sha message authorName date)).

Definition pull_request_record (repo : Repository) (export : Export)
    (pr : github.PullRequest) : outcome Export :=
  name <- deref (Name repo) ;;
  number <- deref (pull_Number pr) ;;
  title <- deref (pull_Title pr) ;;
  state <- deref (pull_State pr) ;;
  user <- deref (pull_User pr) ;;
  login <- deref (Login user) ;;
  created <- deref (pull_CreatedAt pr) ;;
  Return (add_PullRequest export
            (mkPullRequest name number title state login EmptyString created)).

Definition issue_record (repo : Repository) (export : Export)
    (issue : github.Issue) : outcome Export :=
  match is_PullRequestLinks issue with
  | None =>
      name <- deref (Name repo) ;;
      number <- deref (is_Number issue) ;;
      title <- deref (is_Title issue) ;;
      state <- deref (is_State issue) ;;
      user <- deref (is_User issue) ;;
      login <- deref (Login user) ;;
      created <- deref (is_CreatedAt issue) ;;
      Return (add_Issue export
                (mkIssue name number title state login EmptyString created))
  | Some _ => Return export
  end.

Definition release_record (repo : Repository) (export : Export)
    (release : RepositoryRelease) : outcome Export :=
  name <- deref (Name repo) ;;
  tag <- deref (rr_TagName release) ;;
  rname <- deref (rr_Name release) ;;
  author <- deref (rr_Author release) ;;
  login <- deref (Login author) ;;
  created <- deref (rr_CreatedAt release) ;;
  Return (add_Release export
            (mkRelease name tag rname login EmptyString created)).

(** [*repo.Owner.Login, *repo.Name]: the arguments of every listing call. *)
Definition repo_coordinates (repo : Repository) : outcome (string * string) :=
  owner <- deref (Owner repo) ;;
  login <- deref (Login owner) ;;
  name <- deref (Name repo) ;;
  Return (login, name).

(** One listing call followed by the conversion loop.  An API error makes
    the enclosing function return the export as it stands with the error. *)
Definition list_and_convert {A} (answer : api (list A))
    (body : Export -> A -> outcome Export) (export : Export)
  : outcome (Export * option error) :=
  match answer with
  | inr err => Return (export, Some err)
  | inl (items, _) =>
      export' <- range body items export ;;
      Return (export', None)
  end.

(** The body of the loop over the repositories.  [Some err] in the result
    stands for [return export, err]; [None] for falling through to the next
    iteration. *)
Definition fetch_repo (client : Client) (kind username : string)
    (export : Export) (repo : Repository) : outcome (Export * option error) :=
  let opt := mkCommitsListOptions username (mkListOptions 0 100) in
  if kind_is kind "commits" then
    on <- repo_coordinates repo ;;
    list_and_convert (Repositories_ListCommits client (fst on) (snd on) opt)
                     (commit_record repo) export
  else if kind_is kind "pull_requests" then
    on <- repo_coordinates repo ;;
    list_and_convert (PullRequests_List client (fst on) (snd on) None)
                     (pull_request_record repo) export
  else if kind_is kind "issues" then
    on <- repo_coordinates repo ;;
    list_and_convert (Issues_ListByRepo client (fst on) (snd on) None)
                     (issue_record repo) export
  else if kind_is kind "releases" then
    on <- repo_coordinates repo ;;
    list_and_convert (Repositories_ListReleases client (fst on) (snd on) None)
                     (release_record repo) export
  else
    Return (export, Some ("unsupported kind: " ++ kind)%string).

Fixpoint fetch_repos (client : Client) (kind username : string)
    (repos : list Repository) (export : Export)
  : outcome (Export * option error) :=
  match repos with
  | [] => Return (export, None)
  | repo :: rest =>
      r <- fetch_repo client kind username export repo ;;
      match r with
      | (export', Some err) => Return (export', Some err)
      | (export', None) => fetch_repos client kind username rest export'
      end
  end.

Definition fetchGitHubData (client : Client) (kind : string)
  : outcome (Export * option error) :=
  let export := emptyExport in
  let opt := mkRepoListOptions "owner" (mkListOptions 0 100) in
  match Repositories_ListByAuthenticatedUser client opt with
  | inr err => Return (export, Some err)
  | inl (repos, _) =>
      match Users_Get client EmptyString with
      | inr err => Return (export, Some err)
      | inl (user, _) =>
          let username := User_GetLogin (Some user) in
          fetch_repos client kind username repos export
      end
  end.

(** ** Event mode: [fetchGitHubEvents] *)

(** The body of the loop over one page of events. *)
Definition process_event (login : string) (export : Export) (event : Event)
  : outcome Export :=
  if negb (String.eqb (User_GetLogin (Event_GetActor event)) login) then
    Return export
  else
    match Event_ParsePayload event with
    | inr _ => Return export
    | inl payload =>
        let repo := Repository_GetName (Event_GetRepo event) in
        let date := Event_GetCreatedAt event in
        let ty := Event_GetType event in
        if String.eqb ty "PushEvent" then
          match payload with
          | PushPayload p =>
              range (fun ex commit =>
                       message <- deref (hc_Message commit) ;;
                       Return (add_Commit ex
                                 (mkCommit repo (HeadCommit_GetSHA commit)
                                           message EmptyString date)))
                    (pe_Commits p) export
          | _ => Return export
          end
        else if String.eqb ty "PullRequestEvent" then
          match payload with
          | PullRequestPayload p =>
              Return (add_PullRequest export
                        (mkPullRequest repo
                           (PullRequest_GetNumber (pre_PullRequest p))
                           (PullRequest_GetTitle (pre_PullRequest p))
                           EmptyString EmptyString
                           (orEmpty (pre_Action p)) date))
          | _ => Return export
          end
        else if String.eqb ty "IssuesEvent" then
          match payload with
          | IssuesPayload p =>
              Return (add_Issue export
                        (mkIssue repo
                           (Issue_GetNumber (ie_Issue p))
                           (Issue_GetTitle (ie_Issue p))
                           EmptyString EmptyString
                           (orEmpty (ie_Action p)) date))
          | _ => Return export
          end
        else if String.eqb ty "ReleaseEvent" then
          match payload with
          | ReleasePayload p =>
              Return (add_Release export
                        (mkRelease repo
                           (RepositoryRelease_GetTagName (re_Release p))
                           (RepositoryRelease_GetName (re_Release p))
                           EmptyString
                           (orEmpty (re_Action p)) date))
          | _ => Return export
          end
        else if String.eqb ty "WatchEvent" then
          match payload with
          | WatchPayload p =>
              Return (add_Watch export
                        (mkWatch repo EmptyString (orEmpty (we_Action p)) date))
          | _ => Return export
          end
        else Return export
    end.

(** The paging loop.  It runs until a page reports [NextPage = 0], which a
    server need not ever do: [fuel] bounds the number of pages requested and
    [None] means the bound was hit. *)
Fixpoint events_loop (fuel : nat) (client : Client) (user : User)
    (opt : ListOptions) (export : Export)
  : option (outcome (Export * option error)) :=
  match fuel with
  | O => None
  | S fuel' =>
      match deref (Login user) with
      | Panic w => Some (Panic w)
      | Return login =>
          match Activity_ListEventsPerformedByUser client login false opt with
          | inr err => Some (Return (export, Some err))
          | inl (events, resp) =>
              match range (process_event login) events export with
              | Panic w => Some (Panic w)
              | Return export' =>
                  if NextPage resp =? 0 then Some (Return (export', None))
                  else events_loop fuel' client user
                         (mkListOptions (NextPage resp) (PerPage opt)) export'
              end
          end
      end
  end.

Definition fetchGitHubEvents (fuel : nat) (client : Client)
  : option (outcome (Export * option error)) :=
  let export := emptyExport in
  match Users_Get client EmptyString with
  | inr err => Some (Return (export, Some err))
  | inl (user, _) =>
      events_loop fuel client user (mkListOptions 0 100) export
  end.

(** ** What the writers take from the Go libraries and from the system

    The text of a time ([Time.String], [Time.MarshalJSON]) and the escaping
    of a JSON string are routines of the Go standard library; the writers
    are parametric in them. *)
Class GoLib := {
  time_String : Time -> string;
  time_MarshalJSON : Time -> string + error;
  json_string : string -> string }.

(** [fmt.Sprintf("%d", n)]. *)
Definition itoa (n : Z) : string := NilZero.string_of_int (Z.to_int n).

Definition row := list string.

(** The system a run executes in: the date of the day, the client built
    from a token, and which file operations fail.  [csv_Write path written r]
    is the error, if any, of writing record [r] after the records [written]. *)
Record Env := mkEnv {
  now_20060102 : string;
  github_NewClient : string -> Client;
  os_WriteFile : string -> string -> option error;
  os_Create : string -> option error;
  csv_Write : string -> list row -> row -> option error }.

(** What a run leaves behind. *)
Inductive effect :=
| WriteFile (path data : string)
| CsvFile (path : string) (records : list row)
| Table (lines : list row)
| Printf (text : string).

(** ** JSON: [json.MarshalIndent] on an [Export] *)

#[warnings="-register-all"]
Inductive json :=
| JNull
| JString (s : string)
| JNumber (n : Z)
| JRaw (text : string)
| JArray (items : list json)
| JObject (members : list (string * json)).

Section Marshal.
Context `{GoLib}.

Definition marshal_Time (t : Time) : json + error :=
  match time_MarshalJSON t with
  | inl text => inl (JRaw text)
  | inr err => inr err
  end.

(** A struct whose last field is the only one that can fail to encode. *)
Definition marshal_struct (fields : list (string * json)) (date : Time)
  : json + error :=
  match marshal_Time date with
  | inl d => inl (JObject (fields ++ [("date", d)]))
  | inr err => inr err
  end.

Definition marshal_Commit (c : Commit) : json + error :=
  marshal_struct [("repo", JString (commit_Repo c));
                  ("sha", JString (commit_SHA c));
                  ("message", JString (commit_Message c));
                  ("author", JString (commit_Author c))] (commit_Date c).

Definition marshal_PullRequest (p : PullRequest) : json + error :=
  marshal_struct [("repo", JString (pr_Repo p));
                  ("number", JNumber (pr_Number p));
                  ("title", JString (pr_Title p));
                  ("state", JString (pr_State p));
                  ("author", JString (pr_Author p));
                  ("action", JString (pr_Action p))] (pr_Date p).

Definition marshal_Issue (i : Issue) : json + error :=
  marshal_struct [("repo", JString (issue_Repo i));
                  ("number", JNumber (issue_Number i));
                  ("title", JString (issue_Title i));
                  ("state", JString (issue_State i));
                  ("author", JString (issue_Author i));
                  ("action", JString (issue_Action i))] (issue_Date i).

Definition marshal_Release (r : Release) : json + error :=
  marshal_struct [("repo", JString (release_Repo r));
                  ("tag_name", JString (release_TagName r));
                  ("name", JString (release_Name r));
                  ("author", JString (release_Author r));
                  ("action", JString (release_Action r))] (release_Date r).

Definition marshal_Watch (w : Watch) : json + error :=
  marshal_struct [("repo", JString (watch_Repo w));
                  ("author", JString (watch_Author w));
                  ("action", JString (watch_Action w))] (watch_Date w).

Fixpoint marshal_all {A} (f : A -> json + error) (l : list A)
  : list json + error :=
  match l with
  | [] => inl []
  | x :: rest =>
      match f x with
      | inr err => inr err
      | inl j =>
          match marshal_all f rest with
          | inr err => inr err
          | inl js => inl (j :: js)
          end
      end
  end.

(** A nil slice encodes as the JSON value null, any other as an array. *)
Definition marshal_slice {A} (f : A -> json + error) (s : slice A)
  : json + error :=
  match s with
  | None => inl JNull
  | Some l =>
      match marshal_all f l with
      | inl js => inl (JArray js)
      | inr err => inr err
      end
  end.

(** The struct tags of [Export], in field order. *)
Definition marshal_Export (e : Export) : json + error :=
  match marshal_slice marshal_Commit (Commits e) with
  | inr err => inr err
  | inl c =>
  match marshal_slice marshal_PullRequest (PullRequests e) with
  | inr err => inr err
  | inl p =>
  match marshal_slice marshal_Issue (Issues e) with
  | inr err => inr err
  | inl i =>
  match marshal_slice marshal_Release (Releases e) with
  | inr err => inr err
  | inl r =>
  match marshal_slice marshal_Watch (Watches e) with
  | inr err => inr err
  | inl w =>
      inl (JObject [("commits", c); ("pull_requests", p); ("issues", i);
                    ("releases", r); ("watch", w)])
  end end end end end.

Definition nl : string := String "010" EmptyString.
Definition dq : string := String "034" EmptyString.

Fixpoint times (indent : string) (depth : nat) : string :=
  match depth with
  | O => EmptyString
  | S d => (indent ++ times indent d)%string
  end.

(** The indenter: a line break and the indentation after every opening
    bracket and comma and before every closing bracket, a space after
    every colon; an empty array or object stays on one line. *)
Fixpoint render (prefix indent : string) (depth : nat) (v : json) : string :=
  let break d := (nl ++ prefix ++ times indent d)%string in
  match v with
  | JNull => "null"
  | JString s => json_string s
  | JNumber n => itoa n
  | JRaw text => text
  | JArray [] => "[]"
  | JArray items =>
      ("[" ++ break (S depth)
       ++ String.concat ("," ++ break (S depth))
            (map (render prefix indent (S depth)) items)
       ++ break depth ++ "]")%string
  | JObject [] => "{}"
  | JObject members =>
      ("{" ++ break (S depth)
       ++ String.concat ("," ++ break (S depth))
            (map (fun kv : string * json => let (k, x) := kv in
                            dq ++ k ++ dq ++ ": "
                            ++ render prefix indent (S depth) x) members)
       ++ break depth ++ "}")%string
  end.

Definition MarshalIndent (e : Export) (prefix indent : string)
  : string + error :=
  match marshal_Export e with
  | inl v => inl (render prefix indent 0 v)
  | inr err => inr err
  end.

Definition outputJSON (env : Env) (export : Export) (outputFile : string)
  : list effect * option error :=
  match MarshalIndent export EmptyString "  " with
  | inr err => ([], Some err)
  | inl data =>
      match os_WriteFile env outputFile data with
      | Some err => ([], Some err)
      | None => ([WriteFile outputFile data], None)
      end
  end.

End Marshal.

(** ** CSV and text output *)

Definition headers : row :=
  ["Type"; "Repo"; "ID"; "Title"; "State"; "Author"; "Date"].

(** A loop of [writer.Write] calls that stops at the first error.
    [written] is what the file holds so far. *)
Fixpoint write_rows (env : Env) (path : string) (written rows : list row)
  : list row * option error :=
  match rows with
  | [] => (written, None)
  | r :: rest =>
      match csv_Write env path written r with
      | Some err => (written, Some err)
      | None => write_rows env path (written ++ [r]) rest
      end
  end.

Section Writers.
Context `{GoLib}.

Definition commit_row (commit : Commit) : row :=
  ["Commit"; commit_Repo commit; commit_SHA commit; commit_Message commit;
   EmptyString; commit_Author commit; time_String (commit_Date commit)].

Definition pull_request_row (pr : PullRequest) : row :=
  ["PullRequest"; pr_Repo pr; itoa (pr_Number pr); pr_Title pr; pr_State pr;
   pr_Author pr; time_String (pr_Date pr)].

Definition issue_row (issue : Issue) : row :=
  ["Issue"; issue_Repo issue; itoa (issue_Number issue); issue_Title issue;
   issue_State issue; issue_Author issue; time_String (issue_Date issue)].

Definition release_row (release : Release) : row :=
  ["Release"; release_Repo release; release_TagName release;
   release_Name release; EmptyString; release_Author release;
   time_String (release_Date release)].

Definition watch_row (watch : Watch) : row :=
  ["Watch"; watch_Repo watch; EmptyString; EmptyString; EmptyString;
   watch_Action watch; time_String (watch_Date watch)].

(** The [switch kind] of [outputCSV]: the records to write after the
    header.  There is no [default] case. *)
Definition csv_records (export : Export) (kind : string) : list row :=
  if kind_is kind "commits" then map commit_row (elems (Commits export))
  else if kind_is kind "pull_requests" then
    map pull_request_row (elems (PullRequests export))
  else if kind_is kind "issues" then map issue_row (elems (Issues export))
  else if kind_is kind "releases" then
    map release_row (elems (Releases export))
  else if kind_is kind "watch" then map watch_row (elems (Watches export))
  else [].

Definition outputCSV (env : Env) (export : Export) (outputFile kind : string)
  : list effect * option error :=
  match os_Create env outputFile with
  | Some err => ([], Some err)
  | None =>
      match csv_Write env outputFile [] headers with
      | Some err => ([CsvFile outputFile []], Some err)
      | None =>
          let (written, err) :=
            write_rows env outputFile [headers] (csv_records export kind) in
          ([CsvFile outputFile written], err)
      end
  end.

(** The lines handed to the tab writer, one list of cells per line. *)
Definition stdout_lines (export : Export) (kind : string) : list row :=
  if kind_is kind "commits" then
    ["Date"; "Repo"; "SHA"; "Author"; "Message"]
    :: map (fun c => [time_String (commit_Date c); commit_Repo c;
                      commit_SHA c; commit_Author c; commit_Message c])
           (elems (Commits export))
  else if kind_is kind "pull_requests" then
    ["Date"; "Repo"; "Number"; "Title"; "State"; "Author"]
    :: map (fun p => [time_String (pr_Date p); pr_Repo p; itoa (pr_Number p);
                      pr_Title p; pr_State p; pr_Author p])
           (elems (PullRequests export))
  else if kind_is kind "issues" then
    ["Date"; "Repo"; "Number"; "Title"; "State"; "Author"]
    :: map (fun i => [time_String (issue_Date i); issue_Repo i;
                      itoa (issue_Number i); issue_Title i; issue_State i;
                      issue_Author i])
           (elems (Issues export))
  else if kind_is kind "releases" then
    ["Date"; "Repo"; "Tag"; "Name"; "Author"]
    :: map (fun r => [time_String (release_Date r); release_Repo r;
                      release_TagName r; release_Name r; release_Author r])
           (elems (Releases export))
  else if kind_is kind "watch" then
    ["Date"; "Repo"; "Action"]
    :: map (fun w => [time_String (watch_Date w); watch_Repo w;
                      watch_Action w])
           (elems (Watches export))
  else [].

Definition outputStdOut (export : Export) (kind : string)
  : list effect * option error :=
  match stdout_lines export kind with
  | [] => ([], None)
  | lines => ([Table lines], None)
  end.

(** ** The driver *)

(** [strings.LastIndex(s, "/")], counting from [i]; [found] is the last
    index seen so far. *)
Fixpoint last_slash (i found : Z) (s : string) : Z :=
  match s with
  | EmptyString => found
  | String c rest =>
      last_slash (i + 1) (if Ascii.eqb c "/" then i else found) rest
  end.

Definition LastIndex_slash (s : string) : Z := last_slash 0 (-1) s.

Definition generateFilePath (env : Env) (filepath kind format : string)
  : string :=
  let timeNow := now_20060102 env in
  let filename :=
    if String.eqb format "json" then
      ("github-" ++ kind ++ "-export-" ++ timeNow ++ ".json")%string
    else if String.eqb format "csv" then
      ("github-" ++ kind ++ "-export-" ++ timeNow ++ ".csv")%string
    else "stdout" in
  (substring 0 (Z.to_nat (LastIndex_slash filepath + 1)) filepath
   ++ filename)%string.

Record Flags := mkFlags {
  flag_output : string;
  flag_token : string;
  flag_format : string;
  flag_kind : string;
  flag_mode : string }.

(** [run].  [fuel] bounds the pages of the event feed, see [events_loop]. *)
Definition run (fuel : nat) (env : Env) (c : Flags)
  : option (outcome (list effect * option error)) :=
  let client := github_NewClient env (flag_token c) in
  let kind := flag_kind c in
  let format := flag_format c in
  let fetched :=
    if String.eqb (flag_mode c) "events" then fetchGitHubEvents fuel client
    else Some (fetchGitHubData client kind) in
  match fetched with
  | None => None
  | Some (Panic w) => Some (Panic w)
  | Some (Return (_, Some err)) => Some (Return ([], Some err))
  | Some (Return (export, None)) =>
      let outputFile := generateFilePath env (flag_output c) kind format in
      let (effects, err) :=
        if String.eqb format "json" then outputJSON env export outputFile
        else if String.eqb format "csv" then
          outputCSV env export outputFile kind
        else outputStdOut export kind in
      match err with
      | Some e => Some (Return (effects, Some e))
      | None =>
          Some (Return
            (effects ++
             [Printf ("Export completed successfully. Output written to "
                      ++ outputFile ++ nl)%string], None))
      end
  end.

End Writers.

(** ** Vocabulary of the specification *)

(** [Issue.IsPullRequest]: the entry carries pull-request linkage. *)
Definition is_pull_request (issue : github.Issue) : bool :=
  match is_PullRequestLinks issue with
  | Some _ => true
  | None => false
  end.

(** An exported issue record carries the fields of the API entry it was
    made from; [action] stays empty in bulk mode. *)
Definition exported_issue (src : Repository * github.Issue) (rec : Issue)
  : Prop :=
  Name (fst src) = Some (issue_Repo rec)
  /\ is_Number (snd src) = Some (issue_Number rec)
  /\ is_Title (snd src) = Some (issue_Title rec)
  /\ is_State (snd src) = Some (issue_State rec)
  /\ (exists user, is_User (snd src) = Some user
                   /\ Login user = Some (issue_Author rec))
  /\ is_CreatedAt (snd src) = Some (issue_Date rec)
  /\ issue_Action rec = EmptyString.

(** Every field the bulk fetcher dereferences is present. *)
Definition complete_issue (issue : github.Issue) : Prop :=
  is_Number issue <> None /\ is_Title issue <> None
  /\ is_State issue <> None /\ is_CreatedAt issue <> None
  /\ exists user login, is_User issue = Some user /\ Login user = Some login.

(** The event feed as the paging loop walks it from the request [opt]:
    the pages answered in turn, each but the last naming its successor, and
    how the walk ends, on a page without successor ([None]) or on a request
    that fails ([Some err]). *)
Inductive feed (client : Client) (login : string)
  : ListOptions -> list (list Event) -> option error -> Prop :=
| feed_last opt events resp :
    Activity_ListEventsPerformedByUser client login false opt
      = inl (events, resp) ->
    NextPage resp = 0 ->
    feed client login opt [events] None
| feed_fails opt err :
    Activity_ListEventsPerformedByUser client login false opt = inr err ->
    feed client login opt [] (Some err)
| feed_next opt events resp rest ending :
    Activity_ListEventsPerformedByUser client login false opt
      = inl (events, resp) ->
    NextPage resp <> 0 ->
    feed client login (mkListOptions (NextPage resp) (PerPage opt)) rest ending ->
    feed client login opt (events :: rest) ending.

(** The number of requests such a walk makes. *)
Definition requests (pages : list (list Event)) (ending : option error) : nat :=
  (List.length pages + match ending with Some _ => 1 | None => 0 end)%nat.

Definition decodable (event : Event) : bool :=
  match Event_ParsePayload event with
  | inl _ => true
  | inr _ => false
  end.

Definition own_event (login : string) (event : Event) : bool :=
  String.eqb (User_GetLogin (Event_GetActor event)) login.

(** The event table of the specification, rows PushEvent and WatchEvent:
    the records an event of the authenticated user stands for. *)
Definition spec_push_commits (login : string) (event : Event) : list Commit :=
  match Event_ParsePayload event with
  | inl (PushPayload p) =>
      if own_event login event && String.eqb (Event_GetType event) "PushEvent"
      then map (fun c => mkCommit (Repository_GetName (Event_GetRepo event))
                           (orEmpty (hc_SHA c)) (orEmpty (hc_Message c))
                           EmptyString (Event_GetCreatedAt event))
               (pe_Commits p)
      else []
  | _ => []
  end.

Definition spec_watch_records (login : string) (event : Event) : list Watch :=
  match Event_ParsePayload event with
  | inl (WatchPayload p) =>
      if own_event login event && String.eqb (Event_GetType event) "WatchEvent"
      then [mkWatch (Repository_GetName (Event_GetRepo event)) EmptyString
              (orEmpty (we_Action p)) (Event_GetCreatedAt event)]
      else []
  | _ => []
  end.

(** Every commit of a push of the authenticated user carries a message. *)
Definition pushes_have_messages (login : string) (events : list Event) : Prop :=
  forall event p c,
    In event events -> own_event login event = true ->
    Event_GetType event = "PushEvent" ->
    Event_ParsePayload event = inl (PushPayload p) ->
    In c (pe_Commits p) -> hc_Message c <> None.

(** The entries of a listing that are issues proper. *)
Definition plain_issues (issues : list github.Issue) : list github.Issue :=
  filter (fun i => negb (is_pull_request i)) issues.

(** The layout of the JSON document: one member per line, indented by two
    spaces, in the order of the struct fields. *)
Definition member_text (key text : string) : string :=
  ("  " ++ dq ++ key ++ dq ++ ": " ++ text)%string.

Definition export_text (c p i r w : string) : string :=
  ("{" ++ nl
   ++ member_text "commits" c ++ "," ++ nl
   ++ member_text "pull_requests" p ++ "," ++ nl
   ++ member_text "issues" i ++ "," ++ nl
   ++ member_text "releases" r ++ "," ++ nl
   ++ member_text "watch" w ++ nl
   ++ "}")%string.

(** The text of one collection: null for the nil slice, [[]] for an empty
    one, and an opening bracket, the elements indented by four spaces and a
    closing bracket indented by two for any other. *)
Definition collection_text {A} (s : slice A) (text : string) : Prop :=
  match s with
  | None => text = "null"
  | Some [] => text = "[]"
  | Some (_ :: _) =>
      exists body,
        text = ("[" ++ nl ++ "    " ++ body ++ nl ++ "  " ++ "]")%string
  end.

(** [e'] differs from [e] at most in the collection that [kind] names. *)
Definition untouched (kind : string) (e e' : Export) : Prop :=
  (kind <> "commits" -> Commits e' = Commits e)
  /\ (kind <> "pull_requests" -> PullRequests e' = PullRequests e)
  /\ (kind <> "issues" -> Issues e' = Issues e)
  /\ (kind <> "releases" -> Releases e' = Releases e)
  /\ Watches e' = Watches e.

(** *** Bulk mode, the other kinds *)

(** An exported record carries the fields of the API entry it was made
    from. *)
Definition exported_commit (src : Repository * RepositoryCommit) (rec : Commit)
  : Prop :=
  Name (fst src) = Some (commit_Repo rec)
  /\ rc_SHA (snd src) = Some (commit_SHA rec)
  /\ exists gc author,
       rc_Commit (snd src) = Some gc
       /\ gc_Message gc = Some (commit_Message rec)
       /\ gc_Author gc = Some author
       /\ ca_Name author = Some (commit_Author rec)
       /\ ca_Date author = Some (commit_Date rec).

Definition exported_pull_request (src : Repository * github.PullRequest)
    (rec : PullRequest) : Prop :=
  Name (fst src) = Some (pr_Repo rec)
  /\ pull_Number (snd src) = Some (pr_Number rec)
  /\ pull_Title (snd src) = Some (pr_Title rec)
  /\ pull_State (snd src) = Some (pr_State rec)
  /\ (exists user, pull_User (snd src) = Some user
                   /\ Login user = Some (pr_Author rec))
  /\ pull_CreatedAt (snd src) = Some (pr_Date rec)
  /\ pr_Action rec = EmptyString.

Definition exported_release (src : Repository * RepositoryRelease)
    (rec : Release) : Prop :=
  Name (fst src) = Some (release_Repo rec)
  /\ rr_TagName (snd src) = Some (release_TagName rec)
  /\ rr_Name (snd src) = Some (release_Name rec)
  /\ (exists user, rr_Author (snd src) = Some user
                   /\ Login user = Some (release_Author rec))
  /\ rr_CreatedAt (snd src) = Some (release_Date rec)
  /\ release_Action rec = EmptyString.

(** Every pointer the bulk fetcher dereferences is set. *)
Definition complete_commit (c : RepositoryCommit) : Prop :=
  exists sha message name date,
    c = mkRepositoryCommit (Some sha)
          (Some (mkGitCommit (Some message)
                   (Some (mkCommitAuthor (Some name) (Some date))))).

Definition complete_pull_request (p : github.PullRequest) : Prop :=
  exists number title state login created,
    p = github.mkPullRequest (Some number) (Some title) (Some state)
          (Some (mkUser (Some login))) (Some created).

Definition complete_release (r : RepositoryRelease) : Prop :=
  exists tag name login created,
    r = mkRepositoryRelease (Some tag) (Some name)
          (Some (mkUser (Some login))) (Some created).

(** No record of the export carries an action. *)
Definition no_actions (e : Export) : Prop :=
  Forall (fun p => pr_Action p = EmptyString) (elems (PullRequests e))
  /\ Forall (fun i => issue_Action i = EmptyString) (elems (Issues e))
  /\ Forall (fun r => release_Action r = EmptyString) (elems (Releases e)).

(** No record of the export carries an author or a state. *)
Definition no_authors_no_states (e : Export) : Prop :=
  Forall (fun c => commit_Author c = EmptyString) (elems (Commits e))
  /\ Forall (fun p => pr_Author p = EmptyString /\ pr_State p = EmptyString)
            (elems (PullRequests e))
  /\ Forall (fun i => issue_Author i = EmptyString
                      /\ issue_State i = EmptyString) (elems (Issues e))
  /\ Forall (fun r => release_Author r = EmptyString) (elems (Releases e))
  /\ Forall (fun w => watch_Author w = EmptyString) (elems (Watches e)).

(** *** Event mode, the other rows of the event table *)

Definition spec_pull_request_records (login : string) (event : Event)
  : list PullRequest :=
  match Event_ParsePayload event with
  | inl (PullRequestPayload p) =>
      if own_event login event
         && String.eqb (Event_GetType event) "PullRequestEvent"
      then [mkPullRequest (Repository_GetName (Event_GetRepo event))
              (PullRequest_GetNumber (pre_PullRequest p))
              (PullRequest_GetTitle (pre_PullRequest p))
              EmptyString EmptyString (orEmpty (pre_Action p))
              (Event_GetCreatedAt event)]
      else []
  | _ => []
  end.

Definition spec_issue_records (login : string) (event : Event) : list Issue :=
  match Event_ParsePayload event with
  | inl (IssuesPayload p) =>
      if own_event login event
         && String.eqb (Event_GetType event) "IssuesEvent"
      then [mkIssue (Repository_GetName (Event_GetRepo event))
              (Issue_GetNumber (ie_Issue p)) (Issue_GetTitle (ie_Issue p))
              EmptyString EmptyString (orEmpty (ie_Action p))
              (Event_GetCreatedAt event)]
      else []
  | _ => []
  end.

Definition spec_release_records (login : string) (event : Event)
  : list Release :=
  match Event_ParsePayload event with
  | inl (ReleasePayload p) =>
      if own_event login event
         && String.eqb (Event_GetType event) "ReleaseEvent"
      then [mkRelease (Repository_GetName (Event_GetRepo event))
              (RepositoryRelease_GetTagName (re_Release p))
              (RepositoryRelease_GetName (re_Release p))
              EmptyString (orEmpty (re_Action p))
              (Event_GetCreatedAt event)]
      else []
  | _ => []
  end.

(** The five event types the fetcher dispatches on. *)
Definition known_type (ty : string) : bool :=
  String.eqb ty "PushEvent" || String.eqb ty "PullRequestEvent"
  || String.eqb ty "IssuesEvent" || String.eqb ty "ReleaseEvent"
  || String.eqb ty "WatchEvent".

(** The events the fetcher looks at: those of the authenticated user, with
    a payload that decodes and a type it knows. *)
Definition relevant (login : string) (event : Event) : bool :=
  own_event login event && decodable event
  && known_type (Event_GetType event).

(** A decoded push of the authenticated user with a commit that has no
    message. *)
Definition push_lacking_message (login : string) (event : Event) : Prop :=
  own_event login event = true
  /\ Event_GetType event = "PushEvent"
  /\ exists p c, Event_ParsePayload event = inl (PushPayload p)
                 /\ In c (pe_Commits p) /\ hc_Message c = None.

(** *** Output *)


Fixpoint has_slash (s : string) : bool :=
  match s with
  | EmptyString => false
  | String c rest => Ascii.eqb c "/" || has_slash rest
  end.


Definition is_Printf (x : effect) : Prop :=
  match x with
  | Printf _ => True
  | _ => False
  end.

(** The file an effect writes to, if any. *)
Definition written_path (x : effect) : option string :=
  match x with
  | WriteFile path _ => Some path
  | CsvFile path _ => Some path
  | _ => None
  end.

(** What the three writers can leave behind: at most one effect, never a
    message, and a file only at the given path and only for the formats
    json and csv. *)
Definition writer_effect (format outputFile : string) (x : effect) : Prop :=
  ~ is_Printf x
  /\ forall path, written_path x = Some path ->
                  path = outputFile /\ (format = "json" \/ format = "csv").

(** The dates of all records of an export. *)
Definition export_dates (e : Export) : list Time :=
  map commit_Date (elems (Commits e))
  ++ map pr_Date (elems (PullRequests e))
  ++ map issue_Date (elems (Issues e))
  ++ map release_Date (elems (Releases e))
  ++ map watch_Date (elems (Watches e)).

(** ** A GitHub server to run the program against

    A model of the REST interface for worked examples: an account with its
    repositories and its event history, served in pages of [per_page] items
    (30 when the request does not say, 100 at most), pages numbered from 1,
    each answer naming the next page or 0 after the last. *)
Module Server.

Record Repo := mkRepo {
  repo_name : string;
  repo_commits : list RepositoryCommit;
  repo_pulls : list github.PullRequest;
  repo_issues : list github.Issue;
  repo_releases : list RepositoryRelease }.

Record Account := mkAccount {
  login : string;
  repos : list Repo;
  events : list Event }.

Definition per_page (o : ListOptions) : nat :=
  if PerPage o <=? 0 then 30%nat else Z.to_nat (Z.min (PerPage o) 100).

Definition page_number (o : ListOptions) : nat :=
  if Page o <=? 0 then 1%nat else Z.to_nat (Page o).

Definition paginate {A} (all : list A) (o : ListOptions) : list A * Response :=
  let n := per_page o in
  let p := page_number o in
  (firstn n (skipn ((p - 1) * n) all),
   mkResponse (if (p * n <? List.length all)%nat then Z.of_nat (S p) else 0)).

Definition unset : ListOptions := mkListOptions 0 0.

Definition options (o : option ListOptions) : ListOptions :=
  match o with
  | Some o => o
  | None => unset
  end.

Definition find_repo (a : Account) (owner name : string) : option Repo :=
  if String.eqb owner (login a) then
    find (fun r => String.eqb (repo_name r) name) (repos a)
  else None.

Definition listing {A} (a : Account) (owner name : string)
    (items : Repo -> list A) (o : ListOptions) : api (list A) :=
  match find_repo a owner name with
  | Some r => inl (paginate (items r) o)
  | None => inr "404 Not Found"
  end.

Definition serve (a : Account) : Client :=
  mkClient
    (fun o => inl (paginate
                     (map (fun r => mkRepository
                                      (Some (mkUser (Some (login a))))
                                      (Some (repo_name r))) (repos a))
                     (rl_ListOptions o)))
    (fun _ => inl (mkUser (Some (login a)), mkResponse 0))
    (fun owner name o => listing a owner name repo_commits (cl_ListOptions o))
    (fun owner name o => listing a owner name repo_pulls (options o))
    (fun owner name o => listing a owner name repo_issues (options o))
    (fun owner name o => listing a owner name repo_releases (options o))
    (fun user _ o =>
       if String.eqb user (login a) then inl (paginate (events a) o)
       else inr "404 Not Found").

(** A server that is out of reach. *)
Definition unreachable : Client :=
  mkClient (fun _ => inr "dial tcp: connection refused")
           (fun _ => inr "dial tcp: connection refused")
           (fun _ _ _ => inr "dial tcp: connection refused")
           (fun _ _ _ => inr "dial tcp: connection refused")
           (fun _ _ _ => inr "dial tcp: connection refused")
           (fun _ _ _ => inr "dial tcp: connection refused")
           (fun _ _ _ => inr "dial tcp: connection refused").

(** A connection that is lost once the first page of events has been
    served. *)
Definition drops_after_first_page (a : Account) : Client :=
  let c := serve a in
  mkClient (Repositories_ListByAuthenticatedUser c) (Users_Get c)
           (Repositories_ListCommits c) (PullRequests_List c)
           (Issues_ListByRepo c) (Repositories_ListReleases c)
           (fun user b o =>
              if Page o <=? 1 then Activity_ListEventsPerformedByUser c user b o
              else inr "unexpected EOF").

End Server.

(** ** Worked examples: accounts, events and a system to run in *)
Module Examples.

(** Stand-ins for the three library routines: a time prints as its number
    of seconds and a string is quoted as it is. *)
Definition plainLib : GoLib :=
  Build_GoLib (fun t => (itoa t ++ "s")%string)
              (fun t => inl (dq ++ itoa t ++ dq)%string)
              (fun s => (dq ++ s ++ dq)%string).

Definition noon : Time := 63871200000.

Definition octocat_user : User := mkUser (Some "octocat").
Definition stranger : User := mkUser (Some "hubot").

Definition commit_of (sha message : string) : RepositoryCommit :=
  mkRepositoryCommit (Some sha)
    (Some (mkGitCommit (Some message)
             (Some (mkCommitAuthor (Some "The Octocat") (Some noon))))).

Definition plain_issue : github.Issue :=
  github.mkIssue (Some 7) (Some "Crash on start") (Some "open")
                 (Some octocat_user) (Some noon) None.

Definition pull_request_issue : github.Issue :=
  github.mkIssue (Some 8) (Some "Fix crash") (Some "open")
                 (Some octocat_user) (Some noon)
                 (Some (mkPullRequestLinks (Some "https://api.github.com/pulls/8"))).

Definition hello : Server.Repo :=
  Server.mkRepo "hello"
    [commit_of "a1" "first"; commit_of "b2" "second"]
    [github.mkPullRequest (Some 8) (Some "Fix crash") (Some "open")
                          (Some octocat_user) (Some noon)]
    [plain_issue; pull_request_issue]
    [mkRepositoryRelease (Some "v1.0.0") (Some "v1.0") (Some octocat_user)
                         (Some noon)].

Definition hello_repo : Repository :=
  mkRepository (Some octocat_user) (Some "hello").

Definition event_of (ty : string) (actor : User) (parsed : Payload + error)
  : Event :=
  mkEvent (Some ty) (Some actor) (Some hello_repo) (Some noon) parsed.

Definition push_two : Event :=
  event_of "PushEvent" octocat_user
    (inl (PushPayload (mkPushEvent [mkHeadCommit (Some "a1") (Some "first");
                                    mkHeadCommit (Some "b2") (Some "second")]))).

Definition starred : Event :=
  event_of "WatchEvent" octocat_user
    (inl (WatchPayload (mkWatchEvent (Some "started")))).

Definition garbled : Event :=
  event_of "PushEvent" octocat_user
    (inr "unexpected end of JSON input").

Definition foreign : Event :=
  event_of "WatchEvent" stranger
    (inl (WatchPayload (mkWatchEvent (Some "started")))).

(** A push whose second commit was decoded without a message. *)
Definition push_without_message : Event :=
  event_of "PushEvent" octocat_user
    (inl (PushPayload (mkPushEvent [mkHeadCommit (Some "a1") (Some "first");
                                    mkHeadCommit (Some "c3") None]))).

(** One repository, a short event history. *)
Definition octocat : Server.Account :=
  Server.mkAccount "octocat" [hello] [push_two; garbled; starred; foreign].

(** No repository at all. *)
Definition newcomer : Server.Account :=
  Server.mkAccount "octocat" [] [].

(** 101 repositories with one commit each. *)
Definition prolific : Server.Account :=
  Server.mkAccount "octocat"
    (map (fun n => Server.mkRepo ("repo-" ++ itoa (Z.of_nat n))%string
                     [commit_of "a1" "first"] [] [] [])
         (seq 1 101))
    [].

(** An event history of two pages: a hundred stars, then an event that
    does not decode and a push. *)
Definition busy : Server.Account :=
  Server.mkAccount "octocat" [hello] (repeat starred 100 ++ [garbled; push_two]).

(** An event history with a push that lacks a commit message. *)
Definition unlucky : Server.Account :=
  Server.mkAccount "octocat" [hello] [starred; push_without_message].

(** One repository with 31 open pull requests. *)
Definition reviewer : Server.Account :=
  Server.mkAccount "octocat"
    [Server.mkRepo "hello" []
       (repeat (github.mkPullRequest (Some 8) (Some "Fix crash") (Some "open")
                                     (Some octocat_user) (Some noon)) 31)
       [] []]
    [].

(** A system in which every file operation succeeds. *)
Definition system (client : Client) : Env :=
  mkEnv "20250102" (fun _ => client) (fun _ _ => None) (fun _ => None)
        (fun _ _ _ => None).

Definition flags (format kind mode : string) : Flags :=
  mkFlags "github-export.json" "ghp_token" format kind mode.


(** A repository that the listing names but that is gone when asked for. *)
Definition ghost_repo : Repository :=
  mkRepository (Some octocat_user) (Some "ghost").

Definition with_ghost : Client :=
  let c := Server.serve octocat in
  mkClient (fun _ => inl ([hello_repo; ghost_repo; hello_repo], mkResponse 0))
           (Users_Get c) (Repositories_ListCommits c) (PullRequests_List c)
           (Issues_ListByRepo c) (Repositories_ListReleases c)
           (Activity_ListEventsPerformedByUser c).

(** A server that names a next page after every page of events. *)
Definition endless : Client :=
  let c := Server.serve octocat in
  mkClient (Repositories_ListByAuthenticatedUser c) (Users_Get c)
           (Repositories_ListCommits c) (PullRequests_List c)
           (Issues_ListByRepo c) (Repositories_ListReleases c)
           (fun _ _ _ => inl ([starred], mkResponse 2)).

(** Events of the three remaining kinds. *)
Definition pull_opened : Event :=
  event_of "PullRequestEvent" octocat_user
    (inl (PullRequestPayload
            (mkPullRequestEvent (Some "opened")
               (Some (github.mkPullRequest (Some 8) (Some "Fix crash")
                        (Some "open") (Some octocat_user) (Some noon)))))).

Definition issue_closed : Event :=
  event_of "IssuesEvent" octocat_user
    (inl (IssuesPayload (mkIssuesEvent (Some "closed") (Some plain_issue)))).

Definition release_published : Event :=
  event_of "ReleaseEvent" octocat_user
    (inl (ReleasePayload (mkReleaseEvent (Some "published") None))).

Definition forked : Event :=
  event_of "ForkEvent" octocat_user (inl OtherPayload).

Definition active : Server.Account :=
  Server.mkAccount "octocat" [hello]
    [pull_opened; forked; issue_closed; foreign; release_published; garbled].

(** Library routines that refuse to encode a time before the zero time. *)
Definition strictLib : GoLib :=
  Build_GoLib (fun t => (itoa t ++ "s")%string)
              (fun t => if t <? 0
                        then inr "Time.MarshalJSON: year outside of range [0,9999]"
                        else inl (dq ++ itoa t ++ dq)%string)
              (fun s => (dq ++ s ++ dq)%string).

Definition ancient : Export :=
  mkExport (Some [mkCommit "hello" "a1" "first" "The Octocat" noon])
           None None
           (Some [mkRelease "hello" "v0" "v0" "octocat" EmptyString (-1)])
           None.

Definition two_commits : Export :=
  mkExport (Some [mkCommit "hello" "a1" "first" "The Octocat" noon;
                  mkCommit "hello" "b2" "second" "The Octocat" noon])
           None None None None.

Definition two_watches : Export :=
  mkExport None None None None
    (Some [mkWatch "hello" EmptyString "started" noon;
           mkWatch "world" EmptyString "started" noon]).

End Examples.

(** * Properties *)

Unset Implicit Arguments.

(** ** The [outcome] monad and [range] *)

Lemma bind_Return {A B} (m : outcome A) (k : A -> outcome B) (b : B) :
  bind m k = Return b -> exists a, m = Return a /\ k a = Return b.
Proof.
  destruct m as [a|w]; simpl; intros E; [exists a; auto | discriminate].
Qed.

Lemma range_app {A S} (body : S -> A -> outcome S) (xs ys : list A) (s : S) :
  range body (xs ++ ys) s = (s' <- range body xs s ;; range body ys s').
Proof.
  revert s; induction xs as [|x xs IH]; intros s; simpl; [reflexivity|].
  destruct (body s x); simpl; auto.
Qed.

(** ** Bulk mode touches one collection *)

Ltac derefs :=
  repeat match goal with
         | H : bind (deref ?p) _ = Return _ |- _ =>
             let E := fresh "E" in
             destruct p eqn:E; simpl in H; [|discriminate H]
         | H : Return _ = Return _ |- _ => inversion H; subst; clear H
         end.

Lemma untouched_refl kind e : untouched kind e e.
Proof. unfold untouched; auto. Qed.

Lemma untouched_trans kind e1 e2 e3 :
  untouched kind e1 e2 -> untouched kind e2 e3 -> untouched kind e1 e3.
Proof.
  unfold untouched. intros (A1 & A2 & A3 & A4 & A5) (B1 & B2 & B3 & B4 & B5).
  split; [|split; [|split; [|split]]]; intros.
  - rewrite B1, A1; auto.
  - rewrite B2, A2; auto.
  - rewrite B3, A3; auto.
  - rewrite B4, A4; auto.
  - rewrite B5, A5; auto.
Qed.

Ltac frame :=
  unfold untouched; simpl;
  split; [|split; [|split; [|split]]]; intros; congruence.

Lemma commit_record_frame repo e c e' :
  commit_record repo e c = Return e' -> untouched "commits" e e'.
Proof. unfold commit_record; intros E; derefs; frame. Qed.

Lemma pull_request_record_frame repo e p e' :
  pull_request_record repo e p = Return e' -> untouched "pull_requests" e e'.
Proof. unfold pull_request_record; intros E; derefs; frame. Qed.

Lemma issue_record_frame repo e i e' :
  issue_record repo e i = Return e' -> untouched "issues" e e'.
Proof.
  unfold issue_record; intros E.
  destruct (is_PullRequestLinks i); derefs; frame.
Qed.

Lemma release_record_frame repo e r e' :
  release_record repo e r = Return e' -> untouched "releases" e e'.
Proof. unfold release_record; intros E; derefs; frame. Qed.

Lemma range_untouched {A} kind (body : Export -> A -> outcome Export) :
  (forall s x s', body s x = Return s' -> untouched kind s s') ->
  forall xs s s', range body xs s = Return s' -> untouched kind s s'.
Proof.
  intros Hb xs; induction xs as [|x xs IH]; simpl; intros s s' E.
  - inversion E; apply untouched_refl.
  - apply bind_Return in E. destruct E as (s1 & E1 & E2).
    eapply untouched_trans; eauto.
Qed.

Lemma list_and_convert_untouched {A} kind (answer : api (list A))
    body e e' oerr :
  (forall s x s', body s x = Return s' -> untouched kind s s') ->
  list_and_convert answer body e = Return (e', oerr) -> untouched kind e e'.
Proof.
  intros Hb. unfold list_and_convert.
  destruct answer as [[items resp]|err]; intros E.
  - apply bind_Return in E. destruct E as (s1 & E1 & E2).
    inversion E2; subst. eapply range_untouched; eauto.
  - inversion E; apply untouched_refl.
Qed.

Lemma fetch_repo_untouched client kind username e repo e' oerr :
  fetch_repo client kind username e repo = Return (e', oerr) ->
  untouched kind e e'.
Proof.
  unfold fetch_repo, kind_is.
  destruct (String.eqb_spec kind "commits") as [->|N1].
  { intros E. apply bind_Return in E. destruct E as (on & _ & E).
    eapply list_and_convert_untouched; [|exact E].
    intros s x s'; apply commit_record_frame. }
  destruct (String.eqb_spec kind "pull_requests") as [->|N2].
  { intros E. apply bind_Return in E. destruct E as (on & _ & E).
    eapply list_and_convert_untouched; [|exact E].
    intros s x s'; apply pull_request_record_frame. }
  destruct (String.eqb_spec kind "issues") as [->|N3].
  { intros E. apply bind_Return in E. destruct E as (on & _ & E).
    eapply list_and_convert_untouched; [|exact E].
    intros s x s'; apply issue_record_frame. }
  destruct (String.eqb_spec kind "releases") as [->|N4].
  { intros E. apply bind_Return in E. destruct E as (on & _ & E).
    eapply list_and_convert_untouched; [|exact E].
    intros s x s'; apply release_record_frame. }
  intros E; inversion E; subst. apply untouched_refl.
Qed.

Lemma fetch_repos_untouched client kind username repos :
  forall e e' oerr,
    fetch_repos client kind username repos e = Return (e', oerr) ->
    untouched kind e e'.
Proof.
  induction repos as [|repo rest IH]; simpl; intros e e' oerr E.
  - inversion E; subst. apply untouched_refl.
  - apply bind_Return in E. destruct E as ([e1 [err|]] & E1 & E2).
    + inversion E2; subst. eapply fetch_repo_untouched; eauto.
    + eapply untouched_trans; [eapply fetch_repo_untouched|eapply IH]; eauto.
Qed.

Lemma fetchGitHubData_untouched client kind export oerr :
  fetchGitHubData client kind = Return (export, oerr) ->
  untouched kind emptyExport export.
Proof.
  unfold fetchGitHubData.
  destruct (Repositories_ListByAuthenticatedUser client _) as [[repos r1]|err].
  - destruct (Users_Get client _) as [[user r2]|err].
    + apply fetch_repos_untouched.
    + intros E; inversion E; apply untouched_refl.
  - intros E; inversion E; apply untouched_refl.
Qed.

(** C6. A bulk-mode run that succeeds for the requested [kind] returns an
    [Export] in which every collection other than the one [kind] names is
    empty, whatever the server answered; [Watch] is empty for every [kind]. *)
Theorem bulk_export_only_requested_kind client kind export :
  fetchGitHubData client kind = Return (export, None) ->
  (kind <> "commits" -> len (Commits export) = 0%nat)
  /\ (kind <> "pull_requests" -> len (PullRequests export) = 0%nat)
  /\ (kind <> "issues" -> len (Issues export) = 0%nat)
  /\ (kind <> "releases" -> len (Releases export) = 0%nat)
  /\ len (Watches export) = 0%nat.
Proof.
  intros E. apply fetchGitHubData_untouched in E.
  destruct E as (U1 & U2 & U3 & U4 & U5). unfold len.
  repeat split; intros;
    [rewrite U1 | rewrite U2 | rewrite U3 | rewrite U4 | rewrite U5];
    auto.
Qed.

Lemma bulk_export_only_requested_kind_witness :
  exists export,
    fetchGitHubData (Server.serve Examples.octocat) "commits"
      = Return (export, None)
    /\ len (Commits export) = 2%nat
    /\ len (PullRequests export) = 0%nat
    /\ len (Issues export) = 0%nat
    /\ len (Releases export) = 0%nat
    /\ len (Watches export) = 0%nat.
Proof.
  eexists. split; [reflexivity|]. split; [reflexivity|].
  destruct (bulk_export_only_requested_kind
              (Server.serve Examples.octocat) "commits" _ eq_refl)
    as (_ & U2 & U3 & U4 & U5).
  split; [apply U2; discriminate|].
  split; [apply U3; discriminate|].
  split; [apply U4; discriminate|exact U5].
Defined.

(** ** Bulk mode, issues *)

Lemma issue_record_plain repo name e i :
  Name repo = Some name -> is_pull_request i = false -> complete_issue i ->
  exists rec, issue_record repo e i = Return (add_Issue e rec)
              /\ exported_issue (repo, i) rec.
Proof.
  unfold is_pull_request, complete_issue, issue_record, exported_issue.
  cbn [fst snd].
  intros Hn Hp (H1 & H2 & H3 & H4 & user & login & H5 & H6).
  destruct (is_PullRequestLinks i); [discriminate|].
  destruct (is_Number i) as [number|]; [|congruence].
  destruct (is_Title i) as [title|]; [|congruence].
  destruct (is_State i) as [state|]; [|congruence].
  destruct (is_CreatedAt i) as [created|]; [|congruence].
  rewrite Hn, H5. simpl. rewrite H6. simpl.
  eexists; split; [reflexivity|]. simpl.
  repeat split; eauto.
Qed.

Lemma issue_record_linked repo e i :
  is_pull_request i = true -> issue_record repo e i = Return e.
Proof.
  unfold is_pull_request, issue_record.
  destruct (is_PullRequestLinks i); [reflexivity|discriminate].
Qed.

Lemma range_issue_record repo name issues :
  Name repo = Some name ->
  (forall i, In i issues -> is_pull_request i = false -> complete_issue i) ->
  forall e, exists e' recs,
    range (issue_record repo) issues e = Return e'
    /\ Forall2 exported_issue (map (pair repo) (plain_issues issues)) recs
    /\ elems (Issues e') = elems (Issues e) ++ recs.
Proof.
  intros Hn. induction issues as [|i rest IH]; intros Hc e.
  - exists e, []. simpl. rewrite app_nil_r. repeat split; constructor.
  - simpl. destruct (is_pull_request i) eqn:Hp; simpl.
    + rewrite issue_record_linked by assumption. simpl.
      apply IH. intros; apply Hc; simpl; auto.
    + destruct (issue_record_plain repo name e i Hn Hp) as (rec & E & X).
      { apply Hc; simpl; auto. }
      rewrite E. simpl.
      destruct (IH (fun j Hj => Hc j (or_intror Hj)) (add_Issue e rec))
        as (e' & recs & E' & F & L).
      exists e', (rec :: recs). repeat split; [assumption| |].
      * constructor; assumption.
      * rewrite L. simpl. rewrite <- app_assoc. reflexivity.
Qed.

Lemma fetch_repos_issues client username (fetched : Repository -> list github.Issue)
    repos :
  (forall repo, In repo repos ->
     exists owner login name resp,
       Owner repo = Some owner /\ Login owner = Some login
       /\ Name repo = Some name
       /\ Issues_ListByRepo client login name None = inl (fetched repo, resp)) ->
  (forall repo issue, In repo repos -> In issue (fetched repo) ->
     is_pull_request issue = false -> complete_issue issue) ->
  forall e, exists e' recs,
    fetch_repos client "issues" username repos e = Return (e', None)
    /\ Forall2 exported_issue
         (flat_map (fun repo => map (pair repo) (plain_issues (fetched repo)))
                   repos) recs
    /\ elems (Issues e') = elems (Issues e) ++ recs.
Proof.
  induction repos as [|repo rest IH]; intros Hl Hc e.
  - exists e, []. simpl. rewrite app_nil_r. repeat split; constructor.
  - destruct (Hl repo (or_introl eq_refl))
      as (owner & login & name & resp & Ho & Hg & Hn & Ha).
    destruct (range_issue_record repo name (fetched repo) Hn
                (fun i Hi => Hc repo i (or_introl eq_refl) Hi) e)
      as (e1 & recs1 & E1 & F1 & L1).
    destruct (IH (fun r Hr => Hl r (or_intror Hr))
                 (fun r i Hr => Hc r i (or_intror Hr)) e1)
      as (e2 & recs2 & E2 & F2 & L2).
    exists e2, (recs1 ++ recs2). repeat split.
    + simpl. unfold fetch_repo, kind_is, repo_coordinates. simpl.
      rewrite Ho. simpl. rewrite Hg. simpl. rewrite Hn. simpl.
      rewrite Ha. unfold list_and_convert. rewrite E1. simpl. exact E2.
    + simpl. apply Forall2_app; assumption.
    + rewrite L2, L1, app_assoc. reflexivity.
Qed.

(** C5. Bulk mode, kind issues: when the listings succeed and the entries
    without pull-request linkage carry the fields the exporter reads, the run
    succeeds and the exported issues are, one for one and in order, the
    fetched entries without linkage; an entry with linkage is left out. *)
Theorem bulk_issues_exclude_pull_requests client repos r1 user r2
    (fetched : Repository -> list github.Issue) :
  Repositories_ListByAuthenticatedUser client
    (mkRepoListOptions "owner" (mkListOptions 0 100)) = inl (repos, r1) ->
  Users_Get client EmptyString = inl (user, r2) ->
  (forall repo, In repo repos ->
     exists owner login name resp,
       Owner repo = Some owner /\ Login owner = Some login
       /\ Name repo = Some name
       /\ Issues_ListByRepo client login name None = inl (fetched repo, resp)) ->
  (forall repo issue, In repo repos -> In issue (fetched repo) ->
     is_pull_request issue = false -> complete_issue issue) ->
  exists export,
    fetchGitHubData client "issues" = Return (export, None)
    /\ Forall2 exported_issue
         (flat_map (fun repo =>
                      map (pair repo)
                          (filter (fun i => negb (is_pull_request i))
                                  (fetched repo))) repos)
         (elems (Issues export)).
Proof.
  intros Hr Hu Hl Hc. unfold fetchGitHubData. rewrite Hr, Hu.
  destruct (fetch_repos_issues client (User_GetLogin (Some user)) fetched
              repos Hl Hc emptyExport) as (e' & recs & E & F & L).
  exists e'. split; [exact E|]. rewrite L. exact F.
Qed.

Lemma bulk_issues_exclude_pull_requests_witness :
  exists export,
    fetchGitHubData (Server.serve Examples.octocat) "issues"
      = Return (export, None)
    /\ Forall2 exported_issue
         [(Examples.hello_repo, Examples.plain_issue)]
         (elems (Issues export)).
Proof.
  apply (bulk_issues_exclude_pull_requests
           (Server.serve Examples.octocat) [Examples.hello_repo]
           (mkResponse 0) Examples.octocat_user (mkResponse 0)
           (fun _ => [Examples.plain_issue; Examples.pull_request_issue])).
  - reflexivity.
  - reflexivity.
  - intros repo [<-|[]].
    exists Examples.octocat_user, "octocat", "hello", (mkResponse 0).
    repeat split; reflexivity.
  - intros repo issue _ [<-|[<-|[]]] Hp.
    + unfold complete_issue; simpl.
      repeat split; try discriminate.
      exists Examples.octocat_user, "octocat". split; reflexivity.
    + discriminate Hp.
Defined.

(** ** CSV output *)

Section CsvProperties.
Context `{GoLib}.

Lemma write_rows_all env path rows :
  (forall written r, csv_Write env path written r = None) ->
  forall written, write_rows env path written rows = (written ++ rows, None).
Proof.
  intros Hw. induction rows as [|r rest IH]; intros written; simpl.
  - rewrite app_nil_r; reflexivity.
  - rewrite Hw, IH, <- app_assoc. reflexivity.
Qed.

Lemma outputCSV_written env export path kind :
  os_Create env path = None ->
  (forall written r, csv_Write env path written r = None) ->
  outputCSV env export path kind
    = ([CsvFile path (headers :: csv_records export kind)], None).
Proof.
  intros Hc Hw. unfold outputCSV.
  rewrite Hc, Hw, (write_rows_all env path _ Hw). reflexivity.
Qed.

(** C4. When the file can be created and written, CSV output is the header
    row of the seven column names followed by one row for each record of the
    collection that [kind] names, and by nothing for a [kind] that names
    none; in both cases without an error. *)
Theorem csv_header_and_one_row_per_record env export path kind :
  os_Create env path = None ->
  (forall written r, csv_Write env path written r = None) ->
  exists records,
    outputCSV env export path kind
      = ([CsvFile path
            (["Type"; "Repo"; "ID"; "Title"; "State"; "Author"; "Date"]
             :: records)], None)
    /\ (kind = "commits" ->
        records = map commit_row (elems (Commits export))
        /\ List.length records = len (Commits export))
    /\ (kind = "pull_requests" ->
        records = map pull_request_row (elems (PullRequests export))
        /\ List.length records = len (PullRequests export))
    /\ (kind = "issues" ->
        records = map issue_row (elems (Issues export))
        /\ List.length records = len (Issues export))
    /\ (kind = "releases" ->
        records = map release_row (elems (Releases export))
        /\ List.length records = len (Releases export))
    /\ (kind = "watch" ->
        records = map watch_row (elems (Watches export))
        /\ List.length records = len (Watches export))
    /\ (kind <> "commits" -> kind <> "pull_requests" -> kind <> "issues" ->
        kind <> "releases" -> kind <> "watch" -> records = []).
Proof.
  intros Hc Hw. exists (csv_records export kind).
  split; [apply outputCSV_written; assumption|].
  unfold csv_records, kind_is, len.
  repeat split; intros; subst; simpl; try reflexivity;
    try (rewrite length_map; reflexivity).
  repeat match goal with
         | |- context [String.eqb kind ?k] =>
             destruct (String.eqb_spec kind k); [contradiction|]
         end.
  reflexivity.
Qed.

(** C9. With kind watch, each Watch record becomes the row
    Watch,<repo>,,,,<action>,<date>: the action sits in the sixth column,
    which the header calls Author, and the ID, Title and State columns are
    empty. *)
Theorem csv_watch_row_puts_action_under_author env export path :
  os_Create env path = None ->
  (forall written r, csv_Write env path written r = None) ->
  outputCSV env export path "watch"
    = ([CsvFile path
          (headers
           :: map (fun w => ["Watch"; watch_Repo w; EmptyString; EmptyString;
                             EmptyString; watch_Action w;
                             time_String (watch_Date w)])
                  (elems (Watches export)))], None)
  /\ nth_error headers 5 = Some "Author"
  /\ (nth_error headers 2, nth_error headers 3, nth_error headers 4)
     = (Some "ID", Some "Title", Some "State").
Proof.
  intros Hc Hw. split; [|split; reflexivity].
  rewrite (outputCSV_written env export path "watch" Hc Hw). reflexivity.
Qed.

End CsvProperties.

Lemma csv_header_and_one_row_per_record_witness :
  exists records,
    @outputCSV Examples.plainLib
       (Examples.system Server.unreachable) Examples.two_watches
       "github-watch-export-20250102.csv" "watch"
    = ([CsvFile "github-watch-export-20250102.csv"
          (["Type"; "Repo"; "ID"; "Title"; "State"; "Author"; "Date"]
           :: records)], None)
    /\ List.length records = 2%nat.
Proof.
  destruct (@csv_header_and_one_row_per_record Examples.plainLib
              (Examples.system Server.unreachable) Examples.two_watches
              "github-watch-export-20250102.csv" "watch" eq_refl
              (fun _ _ => eq_refl))
    as (records & E & _ & _ & _ & _ & W & _).
  exists records. split; [exact E|].
  destruct (W eq_refl) as (_ & L). exact L.
Defined.

Lemma csv_watch_row_puts_action_under_author_witness :
  @outputCSV Examples.plainLib
     (Examples.system Server.unreachable) Examples.two_watches
     "github-watch-export-20250102.csv" "watch"
  = ([CsvFile "github-watch-export-20250102.csv"
        [["Type"; "Repo"; "ID"; "Title"; "State"; "Author"; "Date"];
         ["Watch"; "hello"; EmptyString; EmptyString; EmptyString; "started";
          "63871200000s"];
         ["Watch"; "world"; EmptyString; EmptyString; EmptyString; "started";
          "63871200000s"]]], None).
Proof.
  exact (proj1 (@csv_watch_row_puts_action_under_author Examples.plainLib
                  (Examples.system Server.unreachable) Examples.two_watches
                  "github-watch-export-20250102.csv" eq_refl
                  (fun _ _ => eq_refl))).
Defined.

(** ** JSON output *)

Lemma string_app_assoc (a b c : string) :
  ((a ++ b) ++ c)%string = (a ++ (b ++ c))%string.
Proof. induction a as [|ch a IH]; simpl; [reflexivity | now rewrite IH]. Qed.

Section JsonProperties.
Context `{GoLib}.

Lemma marshal_slice_text {A} (f : A -> json + error) (s : slice A) v :
  marshal_slice f s = inl v ->
  collection_text s (render EmptyString "  " 1 v).
Proof.
  unfold marshal_slice, collection_text.
  destruct s as [[|x l]|]; simpl.
  - intros E; inversion E; reflexivity.
  - destruct (f x) as [j|]; [|discriminate].
    destruct (marshal_all f l) as [js|]; [|discriminate].
    intros E; inversion E; subst; clear E. simpl.
    eexists. reflexivity.
  - intros E; inversion E; reflexivity.
Qed.

Lemma render_Export c p i r w :
  render EmptyString "  " 0
    (JObject [("commits", c); ("pull_requests", p); ("issues", i);
              ("releases", r); ("watch", w)])
  = export_text (render EmptyString "  " 1 c) (render EmptyString "  " 1 p)
                (render EmptyString "  " 1 i) (render EmptyString "  " 1 r)
                (render EmptyString "  " 1 w).
Proof.
  unfold export_text, member_text. simpl.
  repeat (rewrite string_app_assoc; simpl).
  reflexivity.
Qed.

(** C3, as the code has it. JSON output does not look at the requested kind:
    the document always has the five members commits, pull_requests, issues,
    releases and watch, one per line and indented by two spaces; a collection
    that is the nil slice, which is what an unpopulated collection is,
    renders as null, and a non-nil one as an array, [[]] when it is empty. *)
Theorem json_five_collections_nil_as_null env export path data :
  outputJSON env export path = ([WriteFile path data], None) ->
  exists c p i r w,
    data = export_text c p i r w
    /\ collection_text (Commits export) c
    /\ collection_text (PullRequests export) p
    /\ collection_text (Issues export) i
    /\ collection_text (Releases export) r
    /\ collection_text (Watches export) w.
Proof.
  unfold outputJSON, MarshalIndent, marshal_Export.
  destruct (marshal_slice marshal_Commit (Commits export)) as [c|] eqn:Ec;
    [|discriminate].
  destruct (marshal_slice marshal_PullRequest (PullRequests export))
    as [p|] eqn:Ep; [|discriminate].
  destruct (marshal_slice marshal_Issue (Issues export)) as [i|] eqn:Ei;
    [|discriminate].
  destruct (marshal_slice marshal_Release (Releases export)) as [r|] eqn:Er;
    [|discriminate].
  destruct (marshal_slice marshal_Watch (Watches export)) as [w|] eqn:Ew;
    [|discriminate].
  rewrite render_Export.
  destruct (os_WriteFile env path _); [discriminate|].
  intros E; inversion E; subst; clear E.
  do 5 eexists. split; [reflexivity|].
  repeat split; eapply marshal_slice_text; eassumption.
Qed.

End JsonProperties.

Lemma json_five_collections_nil_as_null_witness :
  exists c,
    @outputJSON Examples.plainLib (Examples.system Server.unreachable)
       Examples.two_watches "github-watch-export-20250102.json"
    = ([WriteFile "github-watch-export-20250102.json"
          (export_text "null" "null" "null" "null" c)], None)
    /\ collection_text (Watches Examples.two_watches) c.
Proof.
  destruct (@json_five_collections_nil_as_null Examples.plainLib
              (Examples.system Server.unreachable) Examples.two_watches
              "github-watch-export-20250102.json" _ eq_refl)
    as (c & p & i & r & w & E & Hc & Hp & Hi & Hr & Hw).
  simpl in Hc, Hp, Hi, Hr. subst c p i r.
  exists w. split; [|exact Hw].
  apply (f_equal (fun d => ([WriteFile "github-watch-export-20250102.json" d],
                            @None error))) in E.
  exact E.
Defined.

(** C3, as stated, fails on an account without repositories: the run
    succeeds with five unpopulated collections and the document shows each of
    them as null, not as [[]]. *)
Lemma json_unpopulated_collection_is_null :
  @run Examples.plainLib 0
     (Examples.system (Server.serve Examples.newcomer))
     (Examples.flags "json" "commits" EmptyString)
  = Some (Return
      ([WriteFile "github-commits-export-20250102.json"
          (export_text "null" "null" "null" "null" "null");
        Printf ("Export completed successfully. Output written to "
                ++ "github-commits-export-20250102.json" ++ nl)%string],
       None))
  /\ export_text "null" "null" "null" "null" "null"
     <> export_text "[]" "[]" "[]" "[]" "[]".
Proof. split; [reflexivity | discriminate]. Qed.


(** ** Event mode: the paging loop *)

Lemma events_loop_feed client user login opt pages ending :
  Login user = Some login ->
  feed client login opt pages ending ->
  forall fuel e,
    (requests pages ending <= fuel)%nat ->
    events_loop fuel client user opt e
    = Some (e' <- range (process_event login) (List.concat pages) e ;;
            Return (e', ending)).
Proof.
  intros Hl F. unfold requests.
  induction F as [opt events resp Ha Hn | opt err Ha
                 | opt events resp rest ending Ha Hn F IH];
    intros [|fuel] e Hf; simpl in Hf; try lia; simpl; rewrite Hl; simpl;
    rewrite Ha.
  - rewrite app_nil_r.
    destruct (range (process_event login) events e); simpl; [|reflexivity].
    rewrite Hn. reflexivity.
  - reflexivity.
  - rewrite range_app.
    destruct (range (process_event login) events e) as [e1|w]; simpl;
      [|reflexivity].
    destruct (Z.eqb_spec (NextPage resp) 0) as [E0|_]; [contradiction|].
    apply IH. lia.
Qed.

Lemma process_event_undecodable login e event :
  decodable event = false -> process_event login e event = Return e.
Proof.
  unfold decodable, process_event. intros D.
  destruct (negb _); [reflexivity|].
  destruct (Event_ParsePayload event); [discriminate|reflexivity].
Qed.

Lemma range_decodable login events :
  forall e,
    range (process_event login) (filter decodable events) e
    = range (process_event login) events e.
Proof.
  induction events as [|event rest IH]; intros e; simpl; [reflexivity|].
  destruct (decodable event) eqn:D; simpl.
  - destruct (process_event login e event); simpl; auto.
  - rewrite (process_event_undecodable login e event D). simpl. apply IH.
Qed.

Section EventProperties.
Context `{GoLib}.

(** C7. In event mode an event whose payload does not decode leaves the
    export as it is and the loop goes on: over a feed that is served to its
    end the fetcher returns what the decodable events of all pages produce.
    A request for a page that fails ends the run with that error and nothing
    is written, whatever the pages before it produced. *)
Theorem events_skip_undecodable_abort_on_fetch_error env c fuel user r login
    pages ending :
  flag_mode c = "events" ->
  Users_Get (github_NewClient env (flag_token c)) EmptyString = inl (user, r) ->
  Login user = Some login ->
  feed (github_NewClient env (flag_token c)) login (mkListOptions 0 100)
       pages ending ->
  (requests pages ending <= fuel)%nat ->
  (forall e event, decodable event = false ->
                   process_event login e event = Return e)
  /\ fetchGitHubEvents fuel (github_NewClient env (flag_token c))
     = Some (e <- range (process_event login)
                        (filter decodable (List.concat pages)) emptyExport ;;
             Return (e, ending))
  /\ (forall err e,
        ending = Some err ->
        range (process_event login) (List.concat pages) emptyExport = Return e ->
        run fuel env c = Some (Return ([], Some err))).
Proof.
  intros Hm Hu Hl F Hf.
  assert (E : fetchGitHubEvents fuel (github_NewClient env (flag_token c))
              = Some (e <- range (process_event login) (List.concat pages)
                                 emptyExport ;;
                      Return (e, ending))).
  { unfold fetchGitHubEvents. rewrite Hu.
    eapply events_loop_feed; eassumption. }
  split; [intros; apply process_event_undecodable; assumption|].
  split.
  - rewrite range_decodable. exact E.
  - intros err e -> R. unfold run. rewrite Hm. simpl.
    rewrite E, R. reflexivity.
Qed.

End EventProperties.

Lemma events_skip_undecodable_abort_on_fetch_error_witness :
  (exists export,
     fetchGitHubEvents 2 (Server.serve Examples.busy)
       = Some (Return (export, None))
     /\ len (Commits export) = 2%nat /\ len (Watches export) = 100%nat)
  /\ @run Examples.plainLib 2
       (Examples.system (Server.drops_after_first_page Examples.busy))
       (Examples.flags "json" "commits" "events")
     = Some (Return ([], Some "unexpected EOF")).
Proof.
  split.
  - assert (F : feed (Server.serve Examples.busy) "octocat"
                  (mkListOptions 0 100)
                  [repeat Examples.starred 100;
                   [Examples.garbled; Examples.push_two]] None).
    { eapply feed_next with (resp := mkResponse 2);
        [reflexivity | discriminate |].
      eapply feed_last with (resp := mkResponse 0); reflexivity. }
    destruct (@events_skip_undecodable_abort_on_fetch_error
                Examples.plainLib
                (Examples.system (Server.serve Examples.busy))
                (Examples.flags "json" "commits" "events") 2
                Examples.octocat_user (mkResponse 0) "octocat" _ None
                eq_refl eq_refl eq_refl F (le_n 2)) as (_ & E & _).
    simpl github_NewClient in E. rewrite E.
    eexists. split; [reflexivity|]. split; reflexivity.
  - assert (F : feed (Server.drops_after_first_page Examples.busy) "octocat"
                  (mkListOptions 0 100)
                  [repeat Examples.starred 100] (Some "unexpected EOF")).
    { eapply feed_next with (resp := mkResponse 2);
        [reflexivity | discriminate |].
      apply feed_fails; reflexivity. }
    destruct (@events_skip_undecodable_abort_on_fetch_error
                Examples.plainLib
                (Examples.system (Server.drops_after_first_page Examples.busy))
                (Examples.flags "json" "commits" "events") 2
                Examples.octocat_user (mkResponse 0) "octocat" _ _
                eq_refl eq_refl eq_refl F (le_n 2)) as (_ & _ & R).
    exact (R "unexpected EOF" _ eq_refl eq_refl).
Defined.

(** ** Event mode: pushes and stars *)

Lemma range_push_commits repo date commits :
  (forall c, In c commits -> hc_Message c <> None) ->
  forall e, exists e',
    range (fun ex commit =>
             message <- deref (hc_Message commit) ;;
             Return (add_Commit ex
                       (mkCommit repo (HeadCommit_GetSHA commit)
                                 message EmptyString date)))
          commits e = Return e'
    /\ elems (Commits e')
       = elems (Commits e)
         ++ map (fun c => mkCommit repo (orEmpty (hc_SHA c))
                            (orEmpty (hc_Message c)) EmptyString date)
                commits
    /\ Watches e' = Watches e.
Proof.
  induction commits as [|c rest IH]; intros Hm e; simpl.
  - exists e. rewrite app_nil_r. auto.
  - destruct (hc_Message c) as [message|] eqn:M;
      [|exfalso; apply (Hm c); [left; reflexivity | exact M]].
    simpl.
    destruct (IH (fun c' Hc => Hm c' (or_intror Hc))
                 (add_Commit e (mkCommit repo (HeadCommit_GetSHA c) message
                                         EmptyString date)))
      as (e' & E & L & W).
    exists e'. rewrite E, L, W. simpl. rewrite <- app_assoc.
    split; [reflexivity|split; reflexivity].
Qed.

Ltac event_leaf :=
  eexists; split; [reflexivity|]; simpl; rewrite ?app_nil_r;
  split; reflexivity.

Lemma process_event_spec login e event :
  (forall p c,
     own_event login event = true -> Event_GetType event = "PushEvent" ->
     Event_ParsePayload event = inl (PushPayload p) ->
     In c (pe_Commits p) -> hc_Message c <> None) ->
  exists e',
    process_event login e event = Return e'
    /\ elems (Commits e') = elems (Commits e) ++ spec_push_commits login event
    /\ elems (Watches e')
       = elems (Watches e) ++ spec_watch_records login event.
Proof.
  intros Hm.
  unfold process_event, spec_push_commits, spec_watch_records, own_event in *.
  destruct (String.eqb (User_GetLogin (Event_GetActor event)) login) eqn:Own;
    simpl.
  2: { exists e. destruct (Event_ParsePayload event) as [[]|];
       rewrite ?app_nil_r; auto. }
  destruct (Event_ParsePayload event) as [payload|err] eqn:P.
  2: { exists e. rewrite !app_nil_r. auto. }
  destruct (String.eqb_spec (Event_GetType event) "PushEvent") as [T|T1].
  { rewrite T. destruct payload as [p| | | | |]; try event_leaf.
    destruct (range_push_commits (Repository_GetName (Event_GetRepo event))
                (Event_GetCreatedAt event) (pe_Commits p)
                (fun c Hc => Hm p c eq_refl T eq_refl Hc) e)
      as (e' & E & L & W).
    exists e'. rewrite E, L, W, app_nil_r. auto. }
  destruct (String.eqb_spec (Event_GetType event) "PullRequestEvent")
    as [T|T2].
  { rewrite T. destruct payload; event_leaf. }
  destruct (String.eqb_spec (Event_GetType event) "IssuesEvent") as [T|T3].
  { rewrite T. destruct payload; event_leaf. }
  destruct (String.eqb_spec (Event_GetType event) "ReleaseEvent") as [T|T4].
  { rewrite T. destruct payload; event_leaf. }
  destruct (String.eqb_spec (Event_GetType event) "WatchEvent") as [T|T5].
  { destruct payload; event_leaf. }
  destruct payload; event_leaf.
Qed.

Lemma range_process_event_spec login events :
  pushes_have_messages login events ->
  forall e, exists e',
    range (process_event login) events e = Return e'
    /\ elems (Commits e')
       = elems (Commits e) ++ flat_map (spec_push_commits login) events
    /\ elems (Watches e')
       = elems (Watches e) ++ flat_map (spec_watch_records login) events.
Proof.
  induction events as [|event rest IH]; intros Hm e; simpl.
  - exists e. rewrite !app_nil_r. auto.
  - destruct (process_event_spec login e event) as (e1 & E1 & C1 & W1).
    { intros p c Ho Ht Hp Hc.
      apply (Hm event p c); auto. left; reflexivity. }
    destruct (IH (fun ev p c Hin => Hm ev p c (or_intror Hin)) e1)
      as (e2 & E2 & C2 & W2).
    exists e2. rewrite E1. simpl. rewrite E2, C2, C1, W2, W1, !app_assoc.
    auto.
Qed.

Lemma spec_push_commits_author login events :
  Forall (fun c => commit_Author c = EmptyString)
         (flat_map (spec_push_commits login) events).
Proof.
  apply Forall_flat_map, Forall_forall. intros event _.
  unfold spec_push_commits.
  destruct (Event_ParsePayload event) as [[p| | | | |]|]; try constructor.
  destruct (_ && _); [|constructor].
  apply Forall_map, Forall_forall. reflexivity.
Qed.

(** C8. Event mode, over a feed served to its end in which the pushed
    commits of the user carry their message: the run succeeds and the
    exported commits are, event after event, one record for each commit of
    each PushEvent of the authenticated user, with the sha and message of the
    commit, the repository and creation time of the event and an empty
    author; the exported Watch records are one for each of the user's
    WatchEvents. *)
Theorem events_push_commits_and_watch_records client fuel user r login pages :
  Users_Get client EmptyString = inl (user, r) ->
  Login user = Some login ->
  feed client login (mkListOptions 0 100) pages None ->
  (List.length pages <= fuel)%nat ->
  pushes_have_messages login (List.concat pages) ->
  exists export,
    fetchGitHubEvents fuel client = Some (Return (export, None))
    /\ elems (Commits export)
       = flat_map (spec_push_commits login) (List.concat pages)
    /\ Forall (fun c => commit_Author c = EmptyString) (elems (Commits export))
    /\ elems (Watches export)
       = flat_map (spec_watch_records login) (List.concat pages).
Proof.
  intros Hu Hl F Hf Hm.
  destruct (range_process_event_spec login (List.concat pages) Hm emptyExport)
    as (export & E & C & W).
  exists export. split; [|split; [exact C|split; [|exact W]]].
  - unfold fetchGitHubEvents. rewrite Hu.
    rewrite (events_loop_feed client user login _ pages None Hl F).
    + rewrite E. reflexivity.
    + unfold requests. lia.
  - rewrite C. apply spec_push_commits_author.
Qed.

Lemma events_push_commits_and_watch_records_witness :
  exists export,
    fetchGitHubEvents 1 (Server.serve Examples.octocat)
      = Some (Return (export, None))
    /\ elems (Commits export)
       = [mkCommit "hello" "a1" "first" EmptyString Examples.noon;
          mkCommit "hello" "b2" "second" EmptyString Examples.noon]
    /\ elems (Watches export)
       = [mkWatch "hello" EmptyString "started" Examples.noon].
Proof.
  destruct (events_push_commits_and_watch_records
              (Server.serve Examples.octocat) 1 Examples.octocat_user
              (mkResponse 0) "octocat"
              [[Examples.push_two; Examples.garbled; Examples.starred;
                Examples.foreign]])
    as (export & E & C & _ & W).
  - reflexivity.
  - reflexivity.
  - eapply feed_last with (resp := mkResponse 0); reflexivity.
  - simpl; lia.
  - intros event p c Hin Hown Hty Hp Hc. simpl in Hin.
    destruct Hin as [<-|[<-|[<-|[<-|[]]]]]; try discriminate.
    inversion Hp; subst p; clear Hp. simpl in Hc.
    destruct Hc as [<-|[<-|[]]]; discriminate.
  - exists export. split; [exact E|]. split; [exact C|exact W].
Defined.

(** ** Where the code departs from its specification *)

(** C10. A push whose payload decodes but whose second commit has no
    message: building the records panics on [*commit.Message], in the loop
    body, in the fetcher and in the run. *)
Lemma push_without_message_panics :
  decodable Examples.push_without_message = true
  /\ process_event "octocat" emptyExport Examples.push_without_message
     = Panic "invalid memory address or nil pointer dereference"
  /\ fetchGitHubEvents 1 (Server.serve Examples.unlucky)
     = Some (Panic "invalid memory address or nil pointer dereference")
  /\ @run Examples.plainLib 1
       (Examples.system (Server.serve Examples.unlucky))
       (Examples.flags "json" "commits" "events")
     = Some (Panic "invalid memory address or nil pointer dereference").
Proof. repeat split. Qed.

(** C1. An account with 101 repositories of one commit each: the fetcher
    asks for the first page of repositories only and exports 100 of the 101
    commits.  A repository with 31 pull requests: the listing is requested
    without options and 30 of them are exported. *)
Lemma bulk_mode_stops_at_first_page :
  (exists export,
     fetchGitHubData (Server.serve Examples.prolific) "commits"
       = Return (export, None)
     /\ len (Commits export) = 100%nat
     /\ List.length (flat_map Server.repo_commits
                              (Server.repos Examples.prolific)) = 101%nat)
  /\ (exists export,
        fetchGitHubData (Server.serve Examples.reviewer) "pull_requests"
          = Return (export, None)
        /\ len (PullRequests export) = 30%nat
        /\ List.length (flat_map Server.repo_pulls
                                 (Server.repos Examples.reviewer)) = 31%nat).
Proof.
  split; eexists; (split; [vm_compute; reflexivity|]); split; reflexivity.
Qed.

Lemma unsupported_kind_rejected_with_repositories client kind repo rest r1
    user r2 :
  kind <> "commits" -> kind <> "pull_requests" -> kind <> "issues" ->
  kind <> "releases" ->
  Repositories_ListByAuthenticatedUser client
    (mkRepoListOptions "owner" (mkListOptions 0 100))
    = inl (repo :: rest, r1) ->
  Users_Get client EmptyString = inl (user, r2) ->
  fetchGitHubData client kind
  = Return (emptyExport, Some ("unsupported kind: " ++ kind)%string).
Proof.
  intros N1 N2 N3 N4 Hr Hu. unfold fetchGitHubData. rewrite Hr, Hu. simpl.
  unfold fetch_repo, kind_is.
  destruct (String.eqb_spec kind "commits"); [contradiction|].
  destruct (String.eqb_spec kind "pull_requests"); [contradiction|].
  destruct (String.eqb_spec kind "issues"); [contradiction|].
  destruct (String.eqb_spec kind "releases"); [contradiction|].
  reflexivity.
Qed.

(** C2. Kind bogus on an account without repositories: the loop that holds
    the check of the kind never runs, the fetcher returns an empty export
    without error, and the run reports success. *)
Lemma unsupported_kind_accepted_without_repositories :
  fetchGitHubData (Server.serve Examples.newcomer) "bogus"
    = Return (emptyExport, None)
  /\ @run Examples.plainLib 0
       (Examples.system (Server.serve Examples.newcomer))
       (Examples.flags EmptyString "bogus" EmptyString)
     = Some (Return
               ([Printf ("Export completed successfully. Output written to "
                         ++ "stdout" ++ nl)%string], None)).
Proof. split; reflexivity. Qed.

(** * Further properties of the code *)

(** ** The output path: [generateFilePath] *)

Lemma last_slash_absent s :
  has_slash s = false -> forall i found, last_slash i found s = found.
Proof.
  induction s as [|c rest IH]; simpl; intros Hs i found; [reflexivity|].
  apply orb_false_iff in Hs. destruct Hs as (Hc & Hr).
  rewrite Hc. apply IH. exact Hr.
Qed.

Lemma last_slash_found dir base :
  has_slash base = false ->
  forall i found,
    last_slash i found (dir ++ String "/" base)
    = i + Z.of_nat (String.length dir).
Proof.
  intros Hb. induction dir as [|c rest IH]; intros i found.
  - cbn [String.append last_slash String.length].
    rewrite Ascii.eqb_refl, (last_slash_absent base Hb). simpl. lia.
  - cbn [String.append last_slash String.length].
    rewrite IH. lia.
Qed.

Lemma substring_prefix a b :
  substring 0 (String.length a) (a ++ b) = a.
Proof.
  induction a as [|c rest IH]; simpl.
  - destruct b; reflexivity.
  - rewrite IH. reflexivity.
Qed.

Lemma substring_zero s : substring 0 0 s = EmptyString.
Proof. destruct s; reflexivity. Qed.

Lemma string_length_app a b :
  String.length (a ++ b) = (String.length a + String.length b)%nat.
Proof. induction a as [|c rest IH]; simpl; [reflexivity | now rewrite IH]. Qed.

(** X1. The generated path keeps the directory of the path the user gave,
    up to and including its last slash, and puts the generated file name in
    place of the base name, which has no influence on the result. *)
Theorem generateFilePath_keeps_directory env dir base kind format :
  has_slash base = false ->
  generateFilePath env (dir ++ "/" ++ base) kind format
  = (dir ++ "/" ++ generateFilePath env base kind format)%string
  /\ generateFilePath env base kind format
     = generateFilePath env EmptyString kind format.
Proof.
  intros Hb. unfold generateFilePath, LastIndex_slash.
  rewrite (last_slash_absent base Hb).
  change (Z.to_nat (-1 + 1)) with 0%nat. rewrite substring_zero.
  change ("/" ++ base)%string with (String "/" base).
  rewrite (last_slash_found dir base Hb).
  replace (Z.to_nat (0 + Z.of_nat (String.length dir) + 1))
    with (String.length (dir ++ "/"))
    by (rewrite string_length_app; simpl; lia).
  change (String "/" base) with ("/" ++ base)%string.
  rewrite <- (string_app_assoc dir "/" base), substring_prefix.
  split; [|reflexivity].
  rewrite string_app_assoc. reflexivity.
Qed.

Lemma generateFilePath_keeps_directory_witness :
  generateFilePath (Examples.system Server.unreachable)
    "/home/octocat/exports/out.json" "commits" "csv"
  = "/home/octocat/exports/github-commits-export-20250102.csv".
Proof.
  exact (proj1 (generateFilePath_keeps_directory
                  (Examples.system Server.unreachable)
                  "/home/octocat/exports" "out.json" "commits" "csv"
                  eq_refl)).
Defined.

(** X2. For a path without a slash the result is the generated file name
    alone: github-<kind>-export-<date>.json for format json, the same with
    .csv for format csv, and stdout for every other format. *)
Theorem generateFilePath_file_name env base kind format :
  has_slash base = false ->
  (format = "json" ->
   generateFilePath env base kind format
   = ("github-" ++ kind ++ "-export-" ++ now_20060102 env ++ ".json")%string)
  /\ (format = "csv" ->
      generateFilePath env base kind format
      = ("github-" ++ kind ++ "-export-" ++ now_20060102 env ++ ".csv")%string)
  /\ (format <> "json" -> format <> "csv" ->
      generateFilePath env base kind format = "stdout").
Proof.
  intros Hb. unfold generateFilePath, LastIndex_slash.
  rewrite (last_slash_absent base Hb).
  change (Z.to_nat (-1 + 1)) with 0%nat. rewrite substring_zero.
  split; [|split].
  - intros ->. reflexivity.
  - intros ->. reflexivity.
  - intros N1 N2.
    destruct (String.eqb_spec format "json"); [contradiction|].
    destruct (String.eqb_spec format "csv"); [contradiction|].
    reflexivity.
Qed.

Lemma generateFilePath_file_name_witness :
  generateFilePath (Examples.system Server.unreachable)
    "github-export.json" "issues" "json"
  = "github-issues-export-20250102.json".
Proof.
  exact (proj1 (generateFilePath_file_name
                  (Examples.system Server.unreachable)
                  "github-export.json" "issues" "json" eq_refl) eq_refl).
Defined.

(** ** The writers *)

Section WriterProperties.
Context `{GoLib}.





Lemma marshal_all_ok {A} (f : A -> json + error) (l : list A) :
  Forall (fun x => exists j, f x = inl j) l ->
  exists js, marshal_all f l = inl js.
Proof.
  induction 1 as [|x l (j & Ej) _ (js & Ejs)]; simpl.
  - eexists; reflexivity.
  - rewrite Ej, Ejs. eexists; reflexivity.
Qed.

Lemma marshal_slice_ok {A} (f : A -> json + error) (date : A -> Time)
    (s : slice A) :
  (forall x, (exists text, time_MarshalJSON (date x) = inl text) ->
             exists j, f x = inl j) ->
  Forall (fun t => exists text, time_MarshalJSON t = inl text)
         (map date (elems s)) ->
  exists v, marshal_slice f s = inl v.
Proof.
  intros Hf F. unfold marshal_slice. destruct s as [l|]; simpl in *.
  - destruct (marshal_all_ok f l) as (js & E).
    { rewrite Forall_map in F. eapply Forall_impl; [|exact F].
      intros x Hx. apply Hf, Hx. }
    rewrite E. eexists; reflexivity.
  - eexists; reflexivity.
Qed.

Lemma marshal_struct_ok fields date :
  (exists text, time_MarshalJSON date = inl text) ->
  exists j, marshal_struct fields date = inl j.
Proof.
  intros (text & E). unfold marshal_struct, marshal_Time. rewrite E.
  eexists; reflexivity.
Qed.

(** X5. JSON output succeeds whenever the date of every record can be
    encoded and the file can be written: the document is written to the
    given path and no error is returned. *)
Theorem json_written_when_dates_encode env export path :
  Forall (fun t => exists text, time_MarshalJSON t = inl text)
         (export_dates export) ->
  (forall data, os_WriteFile env path data = None) ->
  exists data,
    MarshalIndent export EmptyString "  " = inl data
    /\ outputJSON env export path = ([WriteFile path data], None).
Proof.
  unfold export_dates. intros F Hw.
  apply Forall_app in F. destruct F as (Fc & F).
  apply Forall_app in F. destruct F as (Fp & F).
  apply Forall_app in F. destruct F as (Fi & F).
  apply Forall_app in F. destruct F as (Fr & Fw).
  destruct (marshal_slice_ok marshal_Commit commit_Date (Commits export))
    as (c & Ec); [intros; apply marshal_struct_ok; assumption|exact Fc|].
  destruct (marshal_slice_ok marshal_PullRequest pr_Date (PullRequests export))
    as (p & Ep); [intros; apply marshal_struct_ok; assumption|exact Fp|].
  destruct (marshal_slice_ok marshal_Issue issue_Date (Issues export))
    as (i & Ei); [intros; apply marshal_struct_ok; assumption|exact Fi|].
  destruct (marshal_slice_ok marshal_Release release_Date (Releases export))
    as (r & Er); [intros; apply marshal_struct_ok; assumption|exact Fr|].
  destruct (marshal_slice_ok marshal_Watch watch_Date (Watches export))
    as (w & Ew); [intros; apply marshal_struct_ok; assumption|exact Fw|].
  unfold outputJSON, MarshalIndent, marshal_Export.
  rewrite Ec, Ep, Ei, Er, Ew, Hw.
  eexists. split; reflexivity.
Qed.

End WriterProperties.


Lemma json_written_when_dates_encode_witness :
  exists data,
    @outputJSON Examples.plainLib (Examples.system Server.unreachable)
       Examples.two_commits "out.json"
    = ([WriteFile "out.json" data], None).
Proof.
  destruct (@json_written_when_dates_encode Examples.plainLib
              (Examples.system Server.unreachable) Examples.two_commits
              "out.json")
    as (data & _ & E).
  - repeat constructor; eexists; reflexivity.
  - reflexivity.
  - exists data. exact E.
Defined.

(** ** The driver: [run] *)

Section RunProperties.
Context `{GoLib}.

Lemma writers_effects env export outputFile kind format out err :
  (if String.eqb format "json" then outputJSON env export outputFile
   else if String.eqb format "csv" then outputCSV env export outputFile kind
   else outputStdOut export kind) = (out, err) ->
  Forall (writer_effect format outputFile) out /\ (List.length out <= 1)%nat.
Proof.
  assert (Hnil : Forall (writer_effect format outputFile) []
                 /\ (List.length (@nil effect) <= 1)%nat)
    by (split; [constructor|simpl; lia]).
  assert (Hfile : forall x,
             (format = "json" \/ format = "csv") ->
             ~ is_Printf x -> written_path x = Some outputFile ->
             Forall (writer_effect format outputFile) [x]
             /\ (List.length [x] <= 1)%nat).
  { intros x Hf Hx Hp. split; [|simpl; lia].
    constructor; [|constructor]. split; [exact Hx|].
    intros path Hpath. rewrite Hp in Hpath. inversion Hpath. auto. }
  destruct (String.eqb_spec format "json") as [Ej|Nj].
  { unfold outputJSON.
    destruct (MarshalIndent export EmptyString "  ") as [data|e];
      [destruct (os_WriteFile env outputFile data)|];
      intros E; inversion E; subst out err; auto;
      apply Hfile; simpl; auto. }
  destruct (String.eqb_spec format "csv") as [Ec|Nc].
  { unfold outputCSV.
    destruct (os_Create env outputFile);
      [|destruct (csv_Write env outputFile [] headers);
        [|destruct (write_rows env outputFile [headers]
                      (csv_records export kind))]];
      intros E; inversion E; subst out err; auto;
      apply Hfile; simpl; auto. }
  unfold outputStdOut. destruct (stdout_lines export kind);
    intros E; inversion E; subst out err; auto.
  split; [|simpl; lia]. constructor; [|constructor].
  split; [simpl; auto|]. intros path Hp; discriminate Hp.
Qed.

Lemma run_cases fuel env c effects oerr :
  run fuel env c = Some (Return (effects, oerr)) ->
  (effects = [] /\ oerr <> None)
  \/ exists out err,
       Forall (writer_effect (flag_format c)
                 (generateFilePath env (flag_output c) (flag_kind c)
                    (flag_format c))) out
       /\ (List.length out <= 1)%nat
       /\ ((err <> None /\ oerr = err /\ effects = out)
           \/ (err = None /\ oerr = None
               /\ effects
                  = out ++
                    [Printf ("Export completed successfully. Output written to "
                             ++ generateFilePath env (flag_output c)
                                  (flag_kind c) (flag_format c)
                             ++ nl)%string])).
Proof.
  unfold run.
  destruct (if String.eqb (flag_mode c) "events"
            then fetchGitHubEvents fuel (github_NewClient env (flag_token c))
            else Some (fetchGitHubData (github_NewClient env (flag_token c))
                         (flag_kind c)))
    as [[[export [err|]]|w]|]; try discriminate.
  { intros E; inversion E; subst. left. split; [reflexivity|discriminate]. }
  destruct (if String.eqb (flag_format c) "json" then _ else _)
    as [out err] eqn:W.
  apply writers_effects in W. destruct W as (F & L).
  intros E. right. exists out, err. split; [exact F|]. split; [exact L|].
  destruct err as [e|]; inversion E; subst.
  - left. repeat split. discriminate.
  - right. repeat split.
Qed.

(** X6. The success line is printed exactly when the run returns no error,
    and then it is the last thing the run writes; it names the generated
    path.  A run that returns an error prints no message. *)
Theorem run_prints_success_last fuel env c effects oerr :
  run fuel env c = Some (Return (effects, oerr)) ->
  match oerr with
  | None =>
      exists out,
        effects
        = out ++
          [Printf ("Export completed successfully. Output written to "
                   ++ generateFilePath env (flag_output c) (flag_kind c)
                        (flag_format c)
                   ++ nl)%string]
        /\ Forall (fun x => ~ is_Printf x) out
  | Some _ => Forall (fun x => ~ is_Printf x) effects
  end.
Proof.
  intros E. apply run_cases in E.
  destruct E as [(-> & N)|(out & err & F & _ & [(N & -> & ->)|(-> & -> & ->)])].
  - destruct oerr; [constructor|congruence].
  - destruct err; [|congruence].
    eapply Forall_impl; [|exact F]. intros x (Hx & _). exact Hx.
  - exists out. split; [reflexivity|].
    eapply Forall_impl; [|exact F]. intros x (Hx & _). exact Hx.
Qed.

(** X7. A run writes at most one file, at the generated path, and only
    for the formats json and csv; with any other format no file is
    written. *)
Theorem run_writes_one_file_at_generated_path fuel env c effects oerr :
  run fuel env c = Some (Return (effects, oerr)) ->
  (forall x path,
     In x effects -> written_path x = Some path ->
     path = generateFilePath env (flag_output c) (flag_kind c) (flag_format c)
     /\ (flag_format c = "json" \/ flag_format c = "csv"))
  /\ (List.length (filter (fun x => match written_path x with
                                    | Some _ => true
                                    | None => false
                                    end) effects) <= 1)%nat.
Proof.
  intros E. apply run_cases in E.
  destruct E as [(-> & N)|(out & err & F & L & [(N & -> & ->)|(-> & -> & ->)])].
  - split; [intros x path []|simpl; lia].
  - split.
    + intros x path Hin Hp. rewrite Forall_forall in F.
      apply (F x Hin). exact Hp.
    + etransitivity; [apply filter_length_le|exact L].
  - split.
    + intros x path Hin Hp. apply in_app_or in Hin.
      destruct Hin as [Hin|[<-|[]]]; [|discriminate Hp].
      rewrite Forall_forall in F. apply (F x Hin). exact Hp.
    + rewrite filter_app, length_app. simpl.
      pose proof (filter_length_le
                    (fun x => match written_path x with
                              | Some _ => true
                              | None => false
                              end) out). lia.
Qed.

Lemma fetch_repos_app client kind username before after :
  forall e,
    fetch_repos client kind username (before ++ after) e
    = (r <- fetch_repos client kind username before e ;;
       match r with
       | (e', Some err) => Return (e', Some err)
       | (e', None) => fetch_repos client kind username after e'
       end).
Proof.
  induction before as [|repo rest IH]; intros e; simpl; [reflexivity|].
  destruct (fetch_repo client kind username e repo) as [[e1 [err|]]|w];
    simpl; auto.
Qed.

(** X8. Bulk mode stops at the first listing that fails: when the
    repositories before it were fetched and the listing of one repository
    returns an error, the fetcher returns that error, the repositories after
    it are not looked at, and the run writes nothing. *)
Theorem bulk_stops_at_first_failing_listing fuel env c before bad after r1
    user r2 e1 e2 err :
  flag_mode c <> "events" ->
  Repositories_ListByAuthenticatedUser (github_NewClient env (flag_token c))
    (mkRepoListOptions "owner" (mkListOptions 0 100))
    = inl (before ++ bad :: after, r1) ->
  Users_Get (github_NewClient env (flag_token c)) EmptyString
    = inl (user, r2) ->
  fetch_repos (github_NewClient env (flag_token c)) (flag_kind c)
    (User_GetLogin (Some user)) before emptyExport = Return (e1, None) ->
  fetch_repo (github_NewClient env (flag_token c)) (flag_kind c)
    (User_GetLogin (Some user)) e1 bad = Return (e2, Some err) ->
  fetchGitHubData (github_NewClient env (flag_token c)) (flag_kind c)
    = Return (e2, Some err)
  /\ run fuel env c = Some (Return ([], Some err)).
Proof.
  intros Hm Hr Hu Hb Hbad.
  assert (E : fetchGitHubData (github_NewClient env (flag_token c))
                (flag_kind c) = Return (e2, Some err)).
  { unfold fetchGitHubData. rewrite Hr, Hu. cbv beta iota zeta.
    rewrite fetch_repos_app, Hb. cbn [bind fetch_repos].
    rewrite Hbad. reflexivity. }
  split; [exact E|].
  unfold run. destruct (String.eqb_spec (flag_mode c) "events");
    [contradiction|].
  rewrite E. reflexivity.
Qed.

End RunProperties.

Lemma run_prints_success_last_witness :
  exists effects out,
    @run Examples.plainLib 0
       (Examples.system (Server.serve Examples.octocat))
       (Examples.flags "csv" "commits" EmptyString)
    = Some (Return (effects, None))
    /\ effects
       = out ++
         [Printf ("Export completed successfully. Output written to "
                  ++ "github-commits-export-20250102.csv" ++ nl)%string]
    /\ Forall (fun x => ~ is_Printf x) out.
Proof.
  destruct (@run_prints_success_last Examples.plainLib 0
              (Examples.system (Server.serve Examples.octocat))
              (Examples.flags "csv" "commits" EmptyString) _ None eq_refl)
    as (out & E & F).
  eexists. exists out. split; [reflexivity|]. split; [exact E|exact F].
Defined.

Lemma run_writes_one_file_at_generated_path_witness :
  exists effects,
    @run Examples.plainLib 0
       (Examples.system (Server.serve Examples.octocat))
       (Examples.flags "json" "releases" EmptyString)
    = Some (Return (effects, None))
    /\ forall x path,
         In x effects -> written_path x = Some path ->
         path = "github-releases-export-20250102.json"
         /\ ("json" = "json" \/ "json" = "csv").
Proof.
  eexists. split; [reflexivity|].
  exact (proj1 (@run_writes_one_file_at_generated_path Examples.plainLib 0
                  (Examples.system (Server.serve Examples.octocat))
                  (Examples.flags "json" "releases" EmptyString) _ None
                  eq_refl)).
Defined.

Lemma bulk_stops_at_first_failing_listing_witness :
  @run Examples.plainLib 0 (Examples.system Examples.with_ghost)
     (Examples.flags "json" "commits" EmptyString)
  = Some (Return ([], Some "404 Not Found")).
Proof.
  refine (proj2 (@bulk_stops_at_first_failing_listing Examples.plainLib 0
                   (Examples.system Examples.with_ghost)
                   (Examples.flags "json" "commits" EmptyString)
                   [Examples.hello_repo] Examples.ghost_repo
                   [Examples.hello_repo] (mkResponse 0)
                   Examples.octocat_user (mkResponse 0) _ _ "404 Not Found"
                   _ eq_refl eq_refl eq_refl eq_refl)).
  discriminate.
Defined.

(** ** Bulk mode: commits, pull requests and releases *)

Lemma range_records {A R} (body : Export -> A -> outcome Export)
    (get : Export -> slice R) (rel : A -> R -> Prop) (items : list A) :
  (forall e x, In x items ->
     exists rec e', body e x = Return e'
                    /\ elems (get e') = elems (get e) ++ [rec] /\ rel x rec) ->
  forall e, exists e' recs,
    range body items e = Return e'
    /\ Forall2 rel items recs
    /\ elems (get e') = elems (get e) ++ recs.
Proof.
  induction items as [|x rest IH]; intros Hb e; simpl.
  - exists e, []. rewrite app_nil_r.
    split; [reflexivity|split; [constructor|reflexivity]].
  - destruct (Hb e x (or_introl eq_refl)) as (rec & e1 & E1 & L1 & R1).
    destruct (IH (fun e' y Hy => Hb e' y (or_intror Hy)) e1)
      as (e2 & recs & E2 & F2 & L2).
    exists e2, (rec :: recs). rewrite E1. simpl.
    split; [exact E2|]. split; [constructor; assumption|].
    rewrite L2, L1, <- app_assoc. reflexivity.
Qed.

Lemma fetch_repos_records {R} client kind username (get : Export -> slice R)
    (relr : Repository -> list R -> Prop) repos :
  (forall repo, In repo repos ->
     forall e, exists e' recs,
       fetch_repo client kind username e repo = Return (e', None)
       /\ relr repo recs /\ elems (get e') = elems (get e) ++ recs) ->
  forall e, exists e' recss,
    fetch_repos client kind username repos e = Return (e', None)
    /\ Forall2 relr repos recss
    /\ elems (get e') = elems (get e) ++ List.concat recss.
Proof.
  induction repos as [|repo rest IH]; intros Hb e; simpl.
  - exists e, []. simpl. rewrite app_nil_r.
    split; [reflexivity|split; [constructor|reflexivity]].
  - destruct (Hb repo (or_introl eq_refl) e) as (e1 & recs & E1 & R1 & L1).
    destruct (IH (fun r Hr => Hb r (or_intror Hr)) e1)
      as (e2 & recss & E2 & F2 & L2).
    exists e2, (recs :: recss). rewrite E1. simpl.
    split; [exact E2|]. split; [constructor; assumption|].
    rewrite L2, L1, <- app_assoc. reflexivity.
Qed.

Lemma Forall2_flat_map_concat {A B R} (f : A -> list B) (rel : B -> R -> Prop)
    xs yss :
  Forall2 (fun x ys => Forall2 rel (f x) ys) xs yss ->
  Forall2 rel (flat_map f xs) (List.concat yss).
Proof.
  induction 1; simpl; [constructor|apply Forall2_app; assumption].
Qed.

Lemma commit_record_complete repo name e c :
  Name repo = Some name -> complete_commit c ->
  exists rec e',
    commit_record repo e c = Return e'
    /\ elems (Commits e') = elems (Commits e) ++ [rec]
    /\ exported_commit (repo, c) rec.
Proof.
  intros Hn (sha & message & author & date & ->).
  unfold commit_record, exported_commit. cbn [fst snd]. rewrite Hn. simpl.
  do 2 eexists. split; [reflexivity|]. split; [reflexivity|]. simpl.
  split; [reflexivity|]. split; [reflexivity|].
  do 2 eexists. repeat split.
Qed.

Lemma pull_request_record_complete repo name e p :
  Name repo = Some name -> complete_pull_request p ->
  exists rec e',
    pull_request_record repo e p = Return e'
    /\ elems (PullRequests e') = elems (PullRequests e) ++ [rec]
    /\ exported_pull_request (repo, p) rec.
Proof.
  intros Hn (number & title & state & login & created & ->).
  unfold pull_request_record, exported_pull_request. cbn [fst snd]. rewrite Hn. simpl.
  do 2 eexists. split; [reflexivity|]. split; [reflexivity|]. simpl.
  repeat split. eexists. split; reflexivity.
Qed.

Lemma release_record_complete repo name e r :
  Name repo = Some name -> complete_release r ->
  exists rec e',
    release_record repo e r = Return e'
    /\ elems (Releases e') = elems (Releases e) ++ [rec]
    /\ exported_release (repo, r) rec.
Proof.
  intros Hn (tag & rname & login & created & ->).
  unfold release_record, exported_release. cbn [fst snd]. rewrite Hn. simpl.
  do 2 eexists. split; [reflexivity|]. split; [reflexivity|]. simpl.
  repeat split. eexists. split; reflexivity.
Qed.

Lemma Forall2_map_pair {A B R} (a : A) (rel : A * B -> R -> Prop) l recs :
  Forall2 (fun b rec => rel (a, b) rec) l recs ->
  Forall2 rel (map (pair a) l) recs.
Proof. induction 1; simpl; constructor; assumption. Qed.

Ltac listing_step Ho Hg Hn Ha E1 :=
  unfold fetch_repo, kind_is, repo_coordinates; simpl;
  rewrite Ho; simpl; rewrite Hg; simpl; rewrite Hn; simpl;
  simpl in Ha; rewrite Ha; unfold list_and_convert; rewrite E1;
  reflexivity.

(** X9. Bulk mode, kind commits: each repository of the listing is asked
    for its commits with the login of the authenticated user as author
    filter and a page size of 100.  When the listings succeed and the
    commits carry the fields the exporter reads, the run succeeds and the
    exported commits are those commits, one for one, in the order of the
    repository listing and then of each commit listing. *)
Theorem bulk_commits_in_listing_order client repos r1 user r2
    (fetched : Repository -> list RepositoryCommit) :
  Repositories_ListByAuthenticatedUser client
    (mkRepoListOptions "owner" (mkListOptions 0 100)) = inl (repos, r1) ->
  Users_Get client EmptyString = inl (user, r2) ->
  (forall repo, In repo repos ->
     exists owner login name resp,
       Owner repo = Some owner /\ Login owner = Some login
       /\ Name repo = Some name
       /\ Repositories_ListCommits client login name
            (mkCommitsListOptions (User_GetLogin (Some user))
               (mkListOptions 0 100))
          = inl (fetched repo, resp)) ->
  (forall repo c, In repo repos -> In c (fetched repo) -> complete_commit c) ->
  exists export,
    fetchGitHubData client "commits" = Return (export, None)
    /\ Forall2 exported_commit
         (flat_map (fun repo => map (pair repo) (fetched repo)) repos)
         (elems (Commits export)).
Proof.
  intros Hr Hu Hl Hc. unfold fetchGitHubData. rewrite Hr, Hu.
  cbv beta iota zeta.
  destruct (fetch_repos_records client "commits" (User_GetLogin (Some user))
              Commits
              (fun repo recs =>
                 Forall2 exported_commit (map (pair repo) (fetched repo)) recs)
              repos) with (e := emptyExport) as (e' & recss & E & F & L).
  { intros repo Hin e.
    destruct (Hl repo Hin) as (owner & login & name & resp & Ho & Hg & Hn & Ha).
    destruct (range_records (commit_record repo) Commits
                (fun c rec => exported_commit (repo, c) rec) (fetched repo))
      with (e := e) as (e1 & recs & E1 & F1 & L1).
    { intros e0 c Hci. apply (commit_record_complete repo name); auto.
      apply (Hc repo c); assumption. }
    exists e1, recs. split; [|split; [|exact L1]].
    - listing_step Ho Hg Hn Ha E1.
    - apply Forall2_map_pair. exact F1. }
  exists e'. split; [exact E|]. rewrite L. simpl.
  apply Forall2_flat_map_concat. exact F.
Qed.

(** X10. Bulk mode, kind pull_requests: each repository is asked for its
    pull requests without options.  When the listings succeed and the
    entries carry the fields the exporter reads, the run succeeds and the
    exported pull requests are those entries, one for one and in listing
    order, each with an empty action. *)
Theorem bulk_pull_requests_in_listing_order client repos r1 user r2
    (fetched : Repository -> list github.PullRequest) :
  Repositories_ListByAuthenticatedUser client
    (mkRepoListOptions "owner" (mkListOptions 0 100)) = inl (repos, r1) ->
  Users_Get client EmptyString = inl (user, r2) ->
  (forall repo, In repo repos ->
     exists owner login name resp,
       Owner repo = Some owner /\ Login owner = Some login
       /\ Name repo = Some name
       /\ PullRequests_List client login name None
          = inl (fetched repo, resp)) ->
  (forall repo p, In repo repos -> In p (fetched repo) ->
                  complete_pull_request p) ->
  exists export,
    fetchGitHubData client "pull_requests" = Return (export, None)
    /\ Forall2 exported_pull_request
         (flat_map (fun repo => map (pair repo) (fetched repo)) repos)
         (elems (PullRequests export)).
Proof.
  intros Hr Hu Hl Hc. unfold fetchGitHubData. rewrite Hr, Hu.
  cbv beta iota zeta.
  destruct (fetch_repos_records client "pull_requests"
              (User_GetLogin (Some user)) PullRequests
              (fun repo recs =>
                 Forall2 exported_pull_request
                         (map (pair repo) (fetched repo)) recs)
              repos) with (e := emptyExport) as (e' & recss & E & F & L).
  { intros repo Hin e.
    destruct (Hl repo Hin) as (owner & login & name & resp & Ho & Hg & Hn & Ha).
    destruct (range_records (pull_request_record repo) PullRequests
                (fun p rec => exported_pull_request (repo, p) rec)
                (fetched repo))
      with (e := e) as (e1 & recs & E1 & F1 & L1).
    { intros e0 p Hpi. apply (pull_request_record_complete repo name); auto.
      apply (Hc repo p); assumption. }
    exists e1, recs. split; [|split; [|exact L1]].
    - listing_step Ho Hg Hn Ha E1.
    - apply Forall2_map_pair. exact F1. }
  exists e'. split; [exact E|]. rewrite L. simpl.
  apply Forall2_flat_map_concat. exact F.
Qed.

(** X11. Bulk mode, kind releases: each repository is asked for its
    releases without options.  When the listings succeed and the releases
    carry the fields the exporter reads, the run succeeds and the exported
    releases are those releases, one for one and in listing order, each with
    an empty action. *)
Theorem bulk_releases_in_listing_order client repos r1 user r2
    (fetched : Repository -> list RepositoryRelease) :
  Repositories_ListByAuthenticatedUser client
    (mkRepoListOptions "owner" (mkListOptions 0 100)) = inl (repos, r1) ->
  Users_Get client EmptyString = inl (user, r2) ->
  (forall repo, In repo repos ->
     exists owner login name resp,
       Owner repo = Some owner /\ Login owner = Some login
       /\ Name repo = Some name
       /\ Repositories_ListReleases client login name None
          = inl (fetched repo, resp)) ->
  (forall repo r, In repo repos -> In r (fetched repo) -> complete_release r) ->
  exists export,
    fetchGitHubData client "releases" = Return (export, None)
    /\ Forall2 exported_release
         (flat_map (fun repo => map (pair repo) (fetched repo)) repos)
         (elems (Releases export)).
Proof.
  intros Hr Hu Hl Hc. unfold fetchGitHubData. rewrite Hr, Hu.
  cbv beta iota zeta.
  destruct (fetch_repos_records client "releases" (User_GetLogin (Some user))
              Releases
              (fun repo recs =>
                 Forall2 exported_release (map (pair repo) (fetched repo)) recs)
              repos) with (e := emptyExport) as (e' & recss & E & F & L).
  { intros repo Hin e.
    destruct (Hl repo Hin) as (owner & login & name & resp & Ho & Hg & Hn & Ha).
    destruct (range_records (release_record repo) Releases
                (fun r rec => exported_release (repo, r) rec) (fetched repo))
      with (e := e) as (e1 & recs & E1 & F1 & L1).
    { intros e0 r Hri. apply (release_record_complete repo name); auto.
      apply (Hc repo r); assumption. }
    exists e1, recs. split; [|split; [|exact L1]].
    - listing_step Ho Hg Hn Ha E1.
    - apply Forall2_map_pair. exact F1. }
  exists e'. split; [exact E|]. rewrite L. simpl.
  apply Forall2_flat_map_concat. exact F.
Qed.

Lemma bulk_commits_in_listing_order_witness :
  exists export,
    fetchGitHubData (Server.serve Examples.octocat) "commits"
      = Return (export, None)
    /\ Forall2 exported_commit
         [(Examples.hello_repo, Examples.commit_of "a1" "first");
          (Examples.hello_repo, Examples.commit_of "b2" "second")]
         (elems (Commits export)).
Proof.
  apply (bulk_commits_in_listing_order
           (Server.serve Examples.octocat) [Examples.hello_repo]
           (mkResponse 0) Examples.octocat_user (mkResponse 0)
           (fun _ => [Examples.commit_of "a1" "first";
                      Examples.commit_of "b2" "second"])).
  - reflexivity.
  - reflexivity.
  - intros repo [<-|[]].
    exists Examples.octocat_user, "octocat", "hello", (mkResponse 0).
    split; [reflexivity|split; [reflexivity|split; reflexivity]].
  - intros repo c _ [<-|[<-|[]]]; do 4 eexists; reflexivity.
Defined.

Lemma bulk_pull_requests_in_listing_order_witness :
  exists export,
    fetchGitHubData (Server.serve Examples.octocat) "pull_requests"
      = Return (export, None)
    /\ Forall2 exported_pull_request
         [(Examples.hello_repo,
           github.mkPullRequest (Some 8) (Some "Fix crash") (Some "open")
             (Some Examples.octocat_user) (Some Examples.noon))]
         (elems (PullRequests export)).
Proof.
  apply (bulk_pull_requests_in_listing_order
           (Server.serve Examples.octocat) [Examples.hello_repo]
           (mkResponse 0) Examples.octocat_user (mkResponse 0)
           (fun _ => [github.mkPullRequest (Some 8) (Some "Fix crash")
                        (Some "open") (Some Examples.octocat_user)
                        (Some Examples.noon)])).
  - reflexivity.
  - reflexivity.
  - intros repo [<-|[]].
    exists Examples.octocat_user, "octocat", "hello", (mkResponse 0).
    split; [reflexivity|split; [reflexivity|split; reflexivity]].
  - intros repo p _ [<-|[]]; do 5 eexists; reflexivity.
Defined.

Lemma bulk_releases_in_listing_order_witness :
  exists export,
    fetchGitHubData (Server.serve Examples.octocat) "releases"
      = Return (export, None)
    /\ Forall2 exported_release
         [(Examples.hello_repo,
           mkRepositoryRelease (Some "v1.0.0") (Some "v1.0")
             (Some Examples.octocat_user) (Some Examples.noon))]
         (elems (Releases export)).
Proof.
  apply (bulk_releases_in_listing_order
           (Server.serve Examples.octocat) [Examples.hello_repo]
           (mkResponse 0) Examples.octocat_user (mkResponse 0)
           (fun _ => [mkRepositoryRelease (Some "v1.0.0") (Some "v1.0")
                        (Some Examples.octocat_user) (Some Examples.noon)])).
  - reflexivity.
  - reflexivity.
  - intros repo [<-|[]].
    exists Examples.octocat_user, "octocat", "hello", (mkResponse 0).
    split; [reflexivity|split; [reflexivity|split; reflexivity]].
  - intros repo r _ [<-|[]]; do 4 eexists; reflexivity.
Defined.

(** ** Fields the fetchers leave empty *)

Lemma range_invariant {A} (I : Export -> Prop)
    (body : Export -> A -> outcome Export) :
  (forall s x s', body s x = Return s' -> I s -> I s') ->
  forall xs s s', range body xs s = Return s' -> I s -> I s'.
Proof.
  intros Hb xs; induction xs as [|x xs IH]; simpl; intros s s' E Hs.
  - inversion E; subst; exact Hs.
  - apply bind_Return in E. destruct E as (s1 & E1 & E2). eauto.
Qed.

Lemma list_and_convert_invariant {A} (I : Export -> Prop)
    (answer : api (list A)) body e e' oerr :
  (forall s x s', body s x = Return s' -> I s -> I s') ->
  list_and_convert answer body e = Return (e', oerr) -> I e -> I e'.
Proof.
  intros Hb. unfold list_and_convert.
  destruct answer as [[items resp]|err]; intros E Hs.
  - apply bind_Return in E. destruct E as (s1 & E1 & E2).
    inversion E2; subst. eapply range_invariant; eauto.
  - inversion E; subst; exact Hs.
Qed.

Lemma fetch_repo_invariant (I : Export -> Prop) client kind username e repo
    e' oerr :
  (forall s x s', commit_record repo s x = Return s' -> I s -> I s') ->
  (forall s x s', pull_request_record repo s x = Return s' -> I s -> I s') ->
  (forall s x s', issue_record repo s x = Return s' -> I s -> I s') ->
  (forall s x s', release_record repo s x = Return s' -> I s -> I s') ->
  fetch_repo client kind username e repo = Return (e', oerr) -> I e -> I e'.
Proof.
  intros H1 H2 H3 H4. unfold fetch_repo.
  destruct (kind_is kind "commits").
  { intros E Hs. apply bind_Return in E. destruct E as (on & _ & E).
    eapply list_and_convert_invariant; [|exact E|exact Hs]. exact H1. }
  destruct (kind_is kind "pull_requests").
  { intros E Hs. apply bind_Return in E. destruct E as (on & _ & E).
    eapply list_and_convert_invariant; [|exact E|exact Hs]. exact H2. }
  destruct (kind_is kind "issues").
  { intros E Hs. apply bind_Return in E. destruct E as (on & _ & E).
    eapply list_and_convert_invariant; [|exact E|exact Hs]. exact H3. }
  destruct (kind_is kind "releases").
  { intros E Hs. apply bind_Return in E. destruct E as (on & _ & E).
    eapply list_and_convert_invariant; [|exact E|exact Hs]. exact H4. }
  intros E Hs; inversion E; subst; exact Hs.
Qed.

Lemma fetchGitHubData_invariant (I : Export -> Prop) client kind export oerr :
  (forall repo s x s', commit_record repo s x = Return s' -> I s -> I s') ->
  (forall repo s x s',
     pull_request_record repo s x = Return s' -> I s -> I s') ->
  (forall repo s x s', issue_record repo s x = Return s' -> I s -> I s') ->
  (forall repo s x s', release_record repo s x = Return s' -> I s -> I s') ->
  I emptyExport ->
  fetchGitHubData client kind = Return (export, oerr) -> I export.
Proof.
  intros H1 H2 H3 H4 H0. unfold fetchGitHubData.
  destruct (Repositories_ListByAuthenticatedUser client _) as [[repos r1]|err];
    [|intros E; inversion E; subst; exact H0].
  destruct (Users_Get client _) as [[user r2]|err];
    [|intros E; inversion E; subst; exact H0].
  cbv zeta. generalize (User_GetLogin (Some user)) as username.
  intros username. revert H0. generalize emptyExport as e.
  induction repos as [|repo rest IH]; simpl; intros e He E.
  - inversion E; subst; exact He.
  - apply bind_Return in E. destruct E as ([e1 [err|]] & E1 & E2).
    + inversion E2; subst.
      eapply (fetch_repo_invariant I); eauto.
    + eapply IH; [|exact E2].
      eapply (fetch_repo_invariant I); eauto.
Qed.

Ltac grown I :=
  destruct I as (I1 & I2 & I3); unfold no_actions; simpl;
  split; [|split]; auto; apply Forall_app; (split; [assumption|]);
  repeat constructor.

(** X12. Whatever the server answers and whether or not an error is
    returned with it, no pull request, issue or release of the export of a
    bulk-mode fetch carries an action. *)
Theorem bulk_records_have_no_action client kind export oerr :
  fetchGitHubData client kind = Return (export, oerr) -> no_actions export.
Proof.
  apply (fetchGitHubData_invariant no_actions).
  - intros repo s x s' E I. unfold commit_record in E. derefs. exact I.
  - intros repo s x s' E I. unfold pull_request_record in E. derefs.
    grown I.
  - intros repo s x s' E I. unfold issue_record in E.
    destruct (is_PullRequestLinks x); derefs; [exact I|]. grown I.
  - intros repo s x s' E I. unfold release_record in E. derefs. grown I.
  - unfold no_actions. simpl. auto.
Qed.

Lemma bulk_records_have_no_action_witness :
  exists export,
    fetchGitHubData (Server.serve Examples.octocat) "pull_requests"
      = Return (export, None)
    /\ len (PullRequests export) = 1%nat
    /\ no_actions export.
Proof.
  eexists. split; [reflexivity|]. split; [reflexivity|].
  exact (bulk_records_have_no_action (Server.serve Examples.octocat)
           "pull_requests" _ None eq_refl).
Defined.

Ltac grown5 I :=
  destruct I as (I1 & I2 & I3 & I4 & I5); unfold no_authors_no_states; simpl;
  split; [|split; [|split; [|split]]]; auto;
  apply Forall_app; (split; [assumption|]); repeat constructor.

Lemma process_event_no_authors login s event s' :
  process_event login s event = Return s' ->
  no_authors_no_states s -> no_authors_no_states s'.
Proof.
  unfold process_event. intros E I.
  destruct (negb _); [inversion E; subst; exact I|].
  destruct (Event_ParsePayload event) as [payload|];
    [|inversion E; subst; exact I].
  destruct (String.eqb (Event_GetType event) "PushEvent").
  { destruct payload; try (inversion E; subst; exact I).
    eapply (range_invariant no_authors_no_states); [|exact E|exact I].
    intros s0 c s1 E0 I0. cbv beta in E0. derefs. grown5 I0. }
  destruct (String.eqb (Event_GetType event) "PullRequestEvent").
  { destruct payload; inversion E; subst; try exact I. grown5 I. }
  destruct (String.eqb (Event_GetType event) "IssuesEvent").
  { destruct payload; inversion E; subst; try exact I. grown5 I. }
  destruct (String.eqb (Event_GetType event) "ReleaseEvent").
  { destruct payload; inversion E; subst; try exact I. grown5 I. }
  destruct (String.eqb (Event_GetType event) "WatchEvent").
  { destruct payload; inversion E; subst; try exact I. grown5 I. }
  inversion E; subst; exact I.
Qed.

Lemma events_loop_invariant (I : Export -> Prop) :
  (forall login s x s', process_event login s x = Return s' -> I s -> I s') ->
  forall fuel client user opt e e' oerr,
    events_loop fuel client user opt e = Some (Return (e', oerr)) ->
    I e -> I e'.
Proof.
  intros Hb. induction fuel as [|fuel IH]; simpl; intros client user opt e e'
    oerr E He; [discriminate|].
  destruct (deref (Login user)) as [login|w]; [|discriminate].
  destruct (Activity_ListEventsPerformedByUser client login false opt)
    as [[events resp]|err]; [|inversion E; subst; exact He].
  destruct (range (process_event login) events e) as [e1|w] eqn:R;
    [|discriminate].
  assert (H1 : I e1) by (eapply range_invariant; [apply Hb|exact R|exact He]).
  destruct (NextPage resp =? 0); [inversion E; subst; exact H1|].
  eapply IH; eauto.
Qed.

(** X13. Whatever the feed holds and whether or not an error is returned
    with it, no record of the export of an event-mode fetch carries an
    author, and no pull request or issue a state. *)
Theorem event_records_have_no_author_or_state fuel client export oerr :
  fetchGitHubEvents fuel client = Some (Return (export, oerr)) ->
  no_authors_no_states export.
Proof.
  unfold fetchGitHubEvents.
  destruct (Users_Get client EmptyString) as [[user r]|err].
  - intros E. eapply (events_loop_invariant no_authors_no_states);
      [|exact E|].
    + intros login s x s'. apply process_event_no_authors.
    + unfold no_authors_no_states. simpl. auto.
  - intros E; inversion E; subst. unfold no_authors_no_states. simpl. auto.
Qed.

Lemma event_records_have_no_author_or_state_witness :
  exists export,
    fetchGitHubEvents 1 (Server.serve Examples.active)
      = Some (Return (export, None))
    /\ len (PullRequests export) = 1%nat
    /\ no_authors_no_states export.
Proof.
  eexists. split; [reflexivity|]. split; [reflexivity|].
  exact (event_records_have_no_author_or_state 1
           (Server.serve Examples.active) _ None eq_refl).
Defined.

(** ** Event mode: the other rows of the event table *)

Ltac other_leaf E :=
  simpl in E; inversion E; subst; simpl; rewrite ?app_nil_r; auto.

Lemma process_event_others login e event e' :
  process_event login e event = Return e' ->
  elems (PullRequests e')
  = elems (PullRequests e) ++ spec_pull_request_records login event
  /\ elems (Issues e') = elems (Issues e) ++ spec_issue_records login event
  /\ elems (Releases e')
     = elems (Releases e) ++ spec_release_records login event.
Proof.
  unfold process_event, spec_pull_request_records, spec_issue_records,
    spec_release_records, own_event.
  intros E.
  destruct (String.eqb (User_GetLogin (Event_GetActor event)) login);
    cbn [negb andb] in *.
  2: { inversion E; subst.
       destruct (Event_ParsePayload event) as [[]|]; rewrite ?app_nil_r; auto. }
  destruct (Event_ParsePayload event) as [payload|err].
  2: { other_leaf E. }
  destruct (String.eqb_spec (Event_GetType event) "PushEvent") as [T|T1].
  { rewrite ?T. destruct payload as [p| | | | |]; try (other_leaf E; fail).
    cbv beta iota in E. simpl. rewrite !app_nil_r.
    assert (I : PullRequests e' = PullRequests e /\ Issues e' = Issues e
                /\ Releases e' = Releases e).
    { eapply (range_invariant
                (fun s => PullRequests s = PullRequests e
                          /\ Issues s = Issues e /\ Releases s = Releases e));
        [|exact E|auto].
      intros s0 c s1 E0 I0. cbv beta in E0. derefs. exact I0. }
    destruct I as (-> & -> & ->). auto. }
  destruct (String.eqb_spec (Event_GetType event) "PullRequestEvent")
    as [T|T2].
  { rewrite ?T. destruct payload; other_leaf E. }
  destruct (String.eqb_spec (Event_GetType event) "IssuesEvent") as [T|T3].
  { rewrite ?T. destruct payload; other_leaf E. }
  destruct (String.eqb_spec (Event_GetType event) "ReleaseEvent") as [T|T4].
  { rewrite ?T. destruct payload; other_leaf E. }
  destruct (String.eqb_spec (Event_GetType event) "WatchEvent") as [T|T5].
  { destruct payload; other_leaf E. }
  destruct payload; other_leaf E.
Qed.

Lemma range_process_event_others login events :
  forall e e',
    range (process_event login) events e = Return e' ->
    elems (PullRequests e')
    = elems (PullRequests e)
      ++ flat_map (spec_pull_request_records login) events
    /\ elems (Issues e')
       = elems (Issues e) ++ flat_map (spec_issue_records login) events
    /\ elems (Releases e')
       = elems (Releases e) ++ flat_map (spec_release_records login) events.
Proof.
  induction events as [|event rest IH]; simpl; intros e e' E.
  - inversion E; subst. rewrite !app_nil_r. auto.
  - apply bind_Return in E. destruct E as (e1 & E1 & E2).
    apply process_event_others in E1. destruct E1 as (P1 & I1 & R1).
    apply IH in E2. destruct E2 as (P2 & I2 & R2).
    rewrite P2, P1, I2, I1, R2, R1, !app_assoc. auto.
Qed.

(** X14. Event mode, over a feed served to its end in which the pushed
    commits of the user carry their message: the run succeeds, and the
    exported pull requests, issues and releases are, event after event, one
    record for each PullRequestEvent, IssuesEvent and ReleaseEvent of the
    authenticated user, with the number or tag, the title or name and the
    action of the payload (empty or zero where the payload has none) and
    the repository and creation time of the event. *)
Theorem events_pull_requests_issues_releases client fuel user r login pages :
  Users_Get client EmptyString = inl (user, r) ->
  Login user = Some login ->
  feed client login (mkListOptions 0 100) pages None ->
  (List.length pages <= fuel)%nat ->
  pushes_have_messages login (List.concat pages) ->
  exists export,
    fetchGitHubEvents fuel client = Some (Return (export, None))
    /\ elems (PullRequests export)
       = flat_map (spec_pull_request_records login) (List.concat pages)
    /\ elems (Issues export)
       = flat_map (spec_issue_records login) (List.concat pages)
    /\ elems (Releases export)
       = flat_map (spec_release_records login) (List.concat pages).
Proof.
  intros Hu Hl F Hf Hm.
  destruct (range_process_event_spec login (List.concat pages) Hm emptyExport)
    as (export & E & _).
  exists export. split.
  - unfold fetchGitHubEvents. rewrite Hu.
    rewrite (events_loop_feed client user login _ pages None Hl F).
    + rewrite E. reflexivity.
    + unfold requests. lia.
  - apply range_process_event_others in E. exact E.
Qed.

Lemma events_pull_requests_issues_releases_witness :
  exists export,
    fetchGitHubEvents 1 (Server.serve Examples.active)
      = Some (Return (export, None))
    /\ elems (PullRequests export)
       = [mkPullRequest "hello" 8 "Fix crash" EmptyString EmptyString
            "opened" Examples.noon]
    /\ elems (Issues export)
       = [mkIssue "hello" 7 "Crash on start" EmptyString EmptyString
            "closed" Examples.noon]
    /\ elems (Releases export)
       = [mkRelease "hello" EmptyString EmptyString EmptyString "published"
            Examples.noon].
Proof.
  destruct (events_pull_requests_issues_releases
              (Server.serve Examples.active) 1 Examples.octocat_user
              (mkResponse 0) "octocat"
              [[Examples.pull_opened; Examples.forked; Examples.issue_closed;
                Examples.foreign; Examples.release_published;
                Examples.garbled]])
    as (export & E & P & I & R).
  - reflexivity.
  - reflexivity.
  - eapply feed_last with (resp := mkResponse 0); reflexivity.
  - simpl; lia.
  - intros event p c Hin Hown Hty Hp Hc. simpl in Hin.
    destruct Hin as [<-|[<-|[<-|[<-|[<-|[<-|[]]]]]]]; discriminate.
  - exists export. split; [exact E|]. split; [exact P|split; [exact I|exact R]].
Defined.

(** ** Event mode: what is ignored, what can go wrong, and the page bound *)

Lemma process_event_irrelevant login e event :
  relevant login event = false -> process_event login e event = Return e.
Proof.
  unfold relevant, own_event, decodable, known_type, process_event.
  intros R.
  destruct (String.eqb (User_GetLogin (Event_GetActor event)) login);
    [|reflexivity].
  destruct (Event_ParsePayload event) as [payload|err]; [|reflexivity].
  cbn [negb andb] in *.
  destruct (String.eqb (Event_GetType event) "PushEvent"); [discriminate|].
  destruct (String.eqb (Event_GetType event) "PullRequestEvent");
    [discriminate|].
  destruct (String.eqb (Event_GetType event) "IssuesEvent"); [discriminate|].
  destruct (String.eqb (Event_GetType event) "ReleaseEvent"); [discriminate|].
  destruct (String.eqb (Event_GetType event) "WatchEvent"); [discriminate|].
  reflexivity.
Qed.

Lemma range_relevant login events :
  forall e,
    range (process_event login) (filter (relevant login) events) e
    = range (process_event login) events e.
Proof.
  induction events as [|event rest IH]; intros e; simpl; [reflexivity|].
  destruct (relevant login event) eqn:R; simpl.
  - destruct (process_event login e event); simpl; auto.
  - rewrite (process_event_irrelevant login e event R). simpl. apply IH.
Qed.

(** X15. The result of an event-mode fetch depends only on the events of
    the authenticated user whose payload decodes and whose type is one of
    the five the fetcher knows: events of other actors, undecodable events
    and events of any other type can be taken out of the feed without
    changing what is returned. *)
Theorem events_only_relevant_events_count client fuel user r login pages
    ending :
  Users_Get client EmptyString = inl (user, r) ->
  Login user = Some login ->
  feed client login (mkListOptions 0 100) pages ending ->
  (requests pages ending <= fuel)%nat ->
  fetchGitHubEvents fuel client
  = Some (e <- range (process_event login)
                     (filter (relevant login) (List.concat pages))
                     emptyExport ;;
          Return (e, ending)).
Proof.
  intros Hu Hl F Hf. unfold fetchGitHubEvents. rewrite Hu, range_relevant.
  eapply events_loop_feed; eassumption.
Qed.

Lemma events_only_relevant_events_count_witness :
  fetchGitHubEvents 1 (Server.serve Examples.active)
  = Some (e <- range (process_event "octocat")
                     [Examples.pull_opened; Examples.issue_closed;
                      Examples.release_published] emptyExport ;;
          Return (e, None)).
Proof.
  apply (events_only_relevant_events_count
           (Server.serve Examples.active) 1 Examples.octocat_user
           (mkResponse 0) "octocat"
           [[Examples.pull_opened; Examples.forked; Examples.issue_closed;
             Examples.foreign; Examples.release_published; Examples.garbled]]
           None).
  - reflexivity.
  - reflexivity.
  - eapply feed_last with (resp := mkResponse 0); reflexivity.
  - unfold requests; simpl; lia.
Defined.

Lemma range_push_panic repo date commits :
  forall e w,
    range (fun ex commit =>
             message <- deref (hc_Message commit) ;;
             Return (add_Commit ex
                       (mkCommit repo (HeadCommit_GetSHA commit)
                                 message EmptyString date)))
          commits e = Panic w ->
    exists c, In c commits /\ hc_Message c = None.
Proof.
  induction commits as [|c rest IH]; simpl; intros e w E; [discriminate|].
  destruct (hc_Message c) as [message|] eqn:M.
  - simpl in E. apply IH in E. destruct E as (c' & Hin & Hc).
    exists c'. auto.
  - exists c. auto.
Qed.

Lemma process_event_panic login e event w :
  process_event login e event = Panic w -> push_lacking_message login event.
Proof.
  unfold process_event, push_lacking_message, own_event. intros E.
  destruct (String.eqb (User_GetLogin (Event_GetActor event)) login);
    [|discriminate].
  destruct (Event_ParsePayload event) as [payload|err]; [|discriminate].
  cbn [negb] in E.
  destruct (String.eqb_spec (Event_GetType event) "PushEvent") as [T|T1].
  { destruct payload as [p| | | | |]; try discriminate.
    apply range_push_panic in E. destruct E as (c & Hin & Hc).
    split; [reflexivity|]. split; [exact T|]. exists p, c. auto. }
  repeat match type of E with
         | context [if ?b then _ else _] => destruct b
         end;
    destruct payload; discriminate.
Qed.

Lemma range_process_event_panic login events :
  forall e w,
    range (process_event login) events e = Panic w ->
    exists event, In event events /\ push_lacking_message login event.
Proof.
  induction events as [|event rest IH]; simpl; intros e w E; [discriminate|].
  destruct (process_event login e event) as [e1|w1] eqn:P; simpl in E.
  - apply IH in E. destruct E as (ev & Hin & Hp). exists ev. auto.
  - exists event. split; [auto|]. eapply process_event_panic. exact P.
Qed.

(** X16. The only thing in a feed that makes an event-mode fetch panic is a
    decoded PushEvent of the authenticated user with a commit that has no
    message: when the user has a login and the fetch panics, the feed holds
    such an event. *)
Theorem events_panic_only_on_missing_message client fuel user r login pages
    ending w :
  Users_Get client EmptyString = inl (user, r) ->
  Login user = Some login ->
  feed client login (mkListOptions 0 100) pages ending ->
  (requests pages ending <= fuel)%nat ->
  fetchGitHubEvents fuel client = Some (Panic w) ->
  exists event,
    In event (List.concat pages) /\ push_lacking_message login event.
Proof.
  intros Hu Hl F Hf E. unfold fetchGitHubEvents in E. rewrite Hu in E.
  rewrite (events_loop_feed client user login _ pages ending Hl F fuel
             emptyExport Hf) in E.
  destruct (range (process_event login) (List.concat pages) emptyExport)
    as [e1|w1] eqn:R; simpl in E; [discriminate|].
  eapply range_process_event_panic. exact R.
Qed.

Lemma events_panic_only_on_missing_message_witness :
  exists event,
    In event [Examples.starred; Examples.push_without_message]
    /\ push_lacking_message "octocat" event.
Proof.
  apply (events_panic_only_on_missing_message
           (Server.serve Examples.unlucky) 1 Examples.octocat_user
           (mkResponse 0) "octocat"
           [[Examples.starred; Examples.push_without_message]] None
           "invalid memory address or nil pointer dereference").
  - reflexivity.
  - reflexivity.
  - eapply feed_last with (resp := mkResponse 0); reflexivity.
  - unfold requests; simpl; lia.
  - reflexivity.
Defined.




(** X18. The paging loop has no bound of its own: against a server that
    names a next page after every page, and whose events can be processed,
    the fetch has not returned after any number of page requests. *)
Theorem events_never_return_without_last_page client user r login :
  Users_Get client EmptyString = inl (user, r) ->
  Login user = Some login ->
  (forall opt, exists events resp,
     Activity_ListEventsPerformedByUser client login false opt
       = inl (events, resp)
     /\ NextPage resp <> 0
     /\ forall e, exists e',
          range (process_event login) events e = Return e') ->
  forall fuel, fetchGitHubEvents fuel client = None.
Proof.
  intros Hu Hl Hs fuel. unfold fetchGitHubEvents. rewrite Hu.
  generalize (mkListOptions 0 100) as opt. generalize emptyExport as e.
  induction fuel as [|fuel IH]; intros e opt; simpl; [reflexivity|].
  rewrite Hl. simpl.
  destruct (Hs opt) as (events & resp & Ha & Hn & Hr).
  rewrite Ha. destruct (Hr e) as (e' & E). rewrite E.
  destruct (Z.eqb_spec (NextPage resp) 0); [contradiction|].
  apply IH.
Qed.

Lemma events_never_return_without_last_page_witness :
  fetchGitHubEvents 1000 Examples.endless = None.
Proof.
  apply (events_never_return_without_last_page Examples.endless
           Examples.octocat_user (mkResponse 0) "octocat").
  - reflexivity.
  - reflexivity.
  - intros opt. exists [Examples.starred], (mkResponse 2).
    split; [reflexivity|]. split; [discriminate|].
    intros e. eexists. reflexivity.
Defined.

(** ** JSON output is all or nothing *)

Section JsonFailure.
Context `{GoLib}.

Lemma marshal_all_fail {A} (f : A -> json + error) (date : A -> Time)
    (l : list A) :
  (forall x err, time_MarshalJSON (date x) = inr err -> f x = inr err) ->
  Exists (fun t => exists err, time_MarshalJSON t = inr err) (map date l) ->
  exists err, marshal_all f l = inr err.
Proof.
  intros Hf. induction l as [|x rest IH]; simpl; intros Ex.
  - inversion Ex.
  - destruct (f x) as [j|e] eqn:Fx; [|eexists; reflexivity].
    inversion Ex as [? ? (err & Hx)|? ? Hrest]; subst.
    + rewrite (Hf x err Hx) in Fx. discriminate.
    + destruct (IH Hrest) as (err & E). rewrite E. eexists; reflexivity.
Qed.

Lemma marshal_slice_fail {A} (f : A -> json + error) (date : A -> Time)
    (s : slice A) :
  (forall x err, time_MarshalJSON (date x) = inr err -> f x = inr err) ->
  Exists (fun t => exists err, time_MarshalJSON t = inr err)
         (map date (elems s)) ->
  exists err, marshal_slice f s = inr err.
Proof.
  intros Hf Ex. unfold marshal_slice. destruct s as [l|]; simpl in Ex.
  - destruct (marshal_all_fail f date l Hf Ex) as (err & E). rewrite E.
    eexists; reflexivity.
  - inversion Ex.
Qed.

Lemma marshal_struct_fail fields date err :
  time_MarshalJSON date = inr err -> marshal_struct fields date = inr err.
Proof.
  intros E. unfold marshal_struct, marshal_Time. rewrite E. reflexivity.
Qed.

(** X19. JSON output is all or nothing: when the date of some record of the
    export cannot be encoded, no file is written and an error is returned,
    whatever the other records are. *)
Theorem json_nothing_written_when_a_date_fails env export path :
  Exists (fun t => exists err, time_MarshalJSON t = inr err)
         (export_dates export) ->
  exists err, outputJSON env export path = ([], Some err).
Proof.
  unfold export_dates. intros Ex.
  unfold outputJSON, MarshalIndent, marshal_Export.
  destruct (marshal_slice marshal_Commit (Commits export)) as [c|e] eqn:Ec;
    [|eexists; reflexivity].
  apply Exists_app in Ex. destruct Ex as [Ex|Ex].
  { destruct (marshal_slice_fail marshal_Commit commit_Date _
                (fun x err => marshal_struct_fail _ _ err) Ex) as (err & E).
    congruence. }
  destruct (marshal_slice marshal_PullRequest (PullRequests export))
    as [p|e] eqn:Ep; [|eexists; reflexivity].
  apply Exists_app in Ex. destruct Ex as [Ex|Ex].
  { destruct (marshal_slice_fail marshal_PullRequest pr_Date _
                (fun x err => marshal_struct_fail _ _ err) Ex) as (err & E).
    congruence. }
  destruct (marshal_slice marshal_Issue (Issues export)) as [i|e] eqn:Ei;
    [|eexists; reflexivity].
  apply Exists_app in Ex. destruct Ex as [Ex|Ex].
  { destruct (marshal_slice_fail marshal_Issue issue_Date _
                (fun x err => marshal_struct_fail _ _ err) Ex) as (err & E).
    congruence. }
  destruct (marshal_slice marshal_Release (Releases export)) as [r|e] eqn:Er;
    [|eexists; reflexivity].
  apply Exists_app in Ex. destruct Ex as [Ex|Ex].
  { destruct (marshal_slice_fail marshal_Release release_Date _
                (fun x err => marshal_struct_fail _ _ err) Ex) as (err & E).
    congruence. }
  destruct (marshal_slice_fail marshal_Watch watch_Date _
              (fun x err => marshal_struct_fail _ _ err) Ex) as (err & E).
  rewrite E. eexists; reflexivity.
Qed.

End JsonFailure.

Lemma json_nothing_written_when_a_date_fails_witness :
  exists err,
    @outputJSON Examples.strictLib (Examples.system Server.unreachable)
       Examples.ancient "out.json" = ([], Some err).
Proof.
  apply (@json_nothing_written_when_a_date_fails Examples.strictLib).
  unfold export_dates. simpl.
  apply Exists_cons_tl, Exists_cons_hd. eexists. reflexivity.
Defined.

(** ** Bulk mode: the check of the kind *)

(** X20. When the listing names at least one repository, a kind other than
    commits, pull_requests, issues and releases is rejected with the error
    unsupported kind: <kind> and an empty export, and the run writes
    nothing. *)
Theorem unsupported_kind_fails_run_with_repositories fuel env c repo rest r1
    user r2 :
  flag_mode c <> "events" ->
  flag_kind c <> "commits" -> flag_kind c <> "pull_requests" ->
  flag_kind c <> "issues" -> flag_kind c <> "releases" ->
  Repositories_ListByAuthenticatedUser (github_NewClient env (flag_token c))
    (mkRepoListOptions "owner" (mkListOptions 0 100))
    = inl (repo :: rest, r1) ->
  Users_Get (github_NewClient env (flag_token c)) EmptyString
    = inl (user, r2) ->
  forall lib : GoLib,
    fetchGitHubData (github_NewClient env (flag_token c)) (flag_kind c)
    = Return (emptyExport, Some ("unsupported kind: " ++ flag_kind c)%string)
    /\ @run lib fuel env c
       = Some (Return ([], Some ("unsupported kind: " ++ flag_kind c)%string)).
Proof.
  intros Hm N1 N2 N3 N4 Hr Hu lib.
  pose proof (unsupported_kind_rejected_with_repositories _ _ _ _ _ _ _
                N1 N2 N3 N4 Hr Hu) as E.
  split; [exact E|].
  unfold run. destruct (String.eqb_spec (flag_mode c) "events");
    [contradiction|].
  rewrite E. reflexivity.
Qed.

Lemma unsupported_kind_fails_run_with_repositories_witness :
  @run Examples.plainLib 0 (Examples.system (Server.serve Examples.octocat))
     (Examples.flags "csv" "bogus" EmptyString)
  = Some (Return ([], Some "unsupported kind: bogus")).
Proof.
  refine (proj2 (unsupported_kind_fails_run_with_repositories 0
                   (Examples.system (Server.serve Examples.octocat))
                   (Examples.flags "csv" "bogus" EmptyString)
                   Examples.hello_repo [] (mkResponse 0)
                   Examples.octocat_user (mkResponse 0)
                   _ _ _ _ _ eq_refl eq_refl Examples.plainLib));
    discriminate.
Defined.
